(** * Capture, crop and batch dispatch of [CameraView.tsx]

    A shallow embedding of the two React components of
    [src/CameraView.tsx]: [CropModal] (the crop selection and its
    transform to native pixels) and [CameraView] (the list of captured
    images, the camera stream and the batch analysis).

    Conventions.
    - A JavaScript [number] is an IEEE 754 binary64: [PrimFloat.float].
    - A [useState] cell is a field of a record; [setX(prev => f prev)] is
      the functional update of that field.
    - A value a handler reads from its closure ([stream] in [stopCamera])
      is an explicit argument, because the closure of an effect can be
      older than the current state.
    - What the browser decides (the clock, the random generator, the
      answer to [window.confirm], the settlement of a promise) is an
      input of the handler. *)

From Stdlib Require Import Floats.PrimFloat Floats.SpecFloat Floats.FloatOps Floats.FloatAxioms.
From stdpp Require Import base list strings gmap.

Open Scope string_scope.
Open Scope list_scope.

(** ** Data: [interface CapturedImage] *)

Record CapturedImage : Type := mkCapturedImage {
  id : string;
  url : string;
  selected : bool
}.

#[global] Instance CapturedImage_eq_dec : EqDecision CapturedImage.
Proof. solve_decision. Defined.

(** ** JavaScript numbers *)

Module Math.

(** [Math.min(a, b)]: NaN when either argument is NaN; [-0] is smaller
    than [+0]. *)
Definition min (a b : float) : float :=
  if (is_nan a || is_nan b)%bool then nan
  else if ltb a b then a
  else if ltb b a then b
  else if get_sign a then a else b.

(** [Math.max(a, b)]: NaN when either argument is NaN; [+0] is larger
    than [-0]. *)
Definition max (a b : float) : float :=
  if (is_nan a || is_nan b)%bool then nan
  else if ltb a b then b
  else if ltb b a then a
  else if get_sign a then b else a.

(** [Math.abs(a)]. *)
Definition abs (a : float) : float := PrimFloat.abs a.

End Math.

(** ** Component [CropModal] *)

Module CropModal.

(** [{ x, y }], the value of [startPos] and [currentPos]. *)
Record Pos : Type := mkPos { x : float; y : float }.

(** What [handleConfirm] reads of [imgRef.current]. *)
Record HTMLImageElement : Type := mkImg {
  naturalWidth : float;
  width : float
}.

(** What the mouse handlers read of
    [containerRef.current.getBoundingClientRect()]. *)
Record DOMRect : Type := mkDOMRect {
  rect_left : float;
  rect_top : float;
  rect_width : float;
  rect_height : float
}.

(** The state cells and refs of the modal, with its [image] prop. *)
Record Modal : Type := mkModal {
  image : CapturedImage;
  startPos : Pos;
  currentPos : Pos;
  isDrawing : bool;
  imgRef : option HTMLImageElement;
  containerRef : option DOMRect
}.

Definition setStartPos (p : Pos) (m : Modal) : Modal :=
  mkModal (image m) p (currentPos m) (isDrawing m) (imgRef m) (containerRef m).

Definition setCurrentPos (p : Pos) (m : Modal) : Modal :=
  mkModal (image m) (startPos m) p (isDrawing m) (imgRef m) (containerRef m).

Definition setIsDrawing (b : bool) (m : Modal) : Modal :=
  mkModal (image m) (startPos m) (currentPos m) b (imgRef m) (containerRef m).

(** [handleMouseDown]: the press point, relative to the container, is
    both ends of the selection. *)
Definition handleMouseDown (clientX clientY : float) (m : Modal) : Modal :=
  match containerRef m with
  | None => m
  | Some rect =>
      let x := sub clientX (rect_left rect) in
      let y := sub clientY (rect_top rect) in
      setIsDrawing true (setCurrentPos (mkPos x y) (setStartPos (mkPos x y) m))
  end.

(** [handleMouseMove]: the moving end, clamped to the container. *)
Definition handleMouseMove (clientX clientY : float) (m : Modal) : Modal :=
  if negb (isDrawing m) then m
  else match containerRef m with
  | None => m
  | Some rect =>
      let x := Math.max 0 (Math.min (sub clientX (rect_left rect)) (rect_width rect)) in
      let y := Math.max 0 (Math.min (sub clientY (rect_top rect)) (rect_height rect)) in
      setCurrentPos (mkPos x y) m
  end.

(** [handleMouseUp]. *)
Definition handleMouseUp (m : Modal) : Modal := setIsDrawing false m.

(** [selectionStyle]: the selection as drawn, in display pixels. *)
Record Style : Type := mkStyle {
  left : float;
  top : float;
  style_width : float;
  height : float
}.

Definition selectionStyle (m : Modal) : Style :=
  {| left := Math.min (x (startPos m)) (x (currentPos m));
     top := Math.min (y (startPos m)) (y (currentPos m));
     style_width := Math.abs (sub (x (currentPos m)) (x (startPos m)));
     height := Math.abs (sub (y (currentPos m)) (y (startPos m))) |}.

(** The arguments of
    [ctx.drawImage(image, sx, sy, sWidth, sHeight, dx, dy, dWidth, dHeight)]. *)
Record DrawImage : Type := mkDrawImage {
  sx : float; sy : float; sWidth : float; sHeight : float;
  dx : float; dy : float; dWidth : float; dHeight : float
}.

(** The locals [scale] and [x], [y], [w], [h] of [handleConfirm]. *)
Definition scale (el : HTMLImageElement) : float :=
  let naturalWidth := naturalWidth el in
  let clientWidth := width el in
  div naturalWidth clientWidth.

Definition crop_x (el : HTMLImageElement) (m : Modal) : float :=
  mul (Math.min (x (startPos m)) (x (currentPos m))) (scale el).
Definition crop_y (el : HTMLImageElement) (m : Modal) : float :=
  mul (Math.min (y (startPos m)) (y (currentPos m))) (scale el).
Definition crop_w (el : HTMLImageElement) (m : Modal) : float :=
  mul (Math.abs (sub (x (currentPos m)) (x (startPos m)))) (scale el).
Definition crop_h (el : HTMLImageElement) (m : Modal) : float :=
  mul (Math.abs (sub (y (currentPos m)) (y (startPos m)))) (scale el).

(** How a call of [handleConfirm] ends. *)
Inductive Outcome : Type :=
| NoImage                       (* [if (!imgRef.current) return] *)
| Alert (msg : string)          (* [alert(msg); return] *)
| NoContext                     (* [getContext('2d')] gave null *)
| OnConfirm (call : DrawImage) (id newUrl : string).

Section HandleConfirm.

(** [canvas.getContext('2d')] gives a context or null. *)
Variable getContext : bool.
(** The JPEG data URL of a canvas after one [drawImage] call from the
    image with the given [src]. *)
Variable toDataURL : string -> DrawImage -> string.

Definition handleConfirm (m : Modal) : Outcome :=
  match imgRef m with
  | None => NoImage
  | Some el =>
      let x := crop_x el m in
      let y := crop_y el m in
      let w := crop_w el m in
      let h := crop_h el m in
      if (ltb w 50 || ltb h 50)%bool then
        Alert "Selection too small. Please select a larger area."
      else if getContext then
        let call := mkDrawImage x y w h 0 0 w h in
        OnConfirm call (id (image m)) (toDataURL (url (image m)) call)
      else NoContext
  end.

End HandleConfirm.

End CropModal.

(** ** Component [CameraView] *)

Module CameraView.

(** A [MediaStream], as far as the component looks at it: its tracks. *)
Record MediaStream : Type := mkMediaStream { getTracks : list nat }.

Inductive ViewMode : Type := camera | review.

(** The [useState] cells of the component. *)
Record State : Type := mkState {
  stream : option MediaStream;
  capturedImages : list CapturedImage;
  isAnalyzing : bool;
  error : option string;
  viewMode : ViewMode;
  cropTarget : option CapturedImage
}.

(** The initial value of every cell. *)
Definition initialState : State :=
  {| stream := None; capturedImages := []; isAnalyzing := false;
     error := None; viewMode := camera; cropTarget := None |}.

Definition setStream (v : option MediaStream) (s : State) : State :=
  mkState v (capturedImages s) (isAnalyzing s) (error s) (viewMode s) (cropTarget s).

Definition setCapturedImages
    (f : list CapturedImage -> list CapturedImage) (s : State) : State :=
  mkState (stream s) (f (capturedImages s)) (isAnalyzing s) (error s) (viewMode s)
          (cropTarget s).

Definition setIsAnalyzing (v : bool) (s : State) : State :=
  mkState (stream s) (capturedImages s) v (error s) (viewMode s) (cropTarget s).

Definition setError (v : option string) (s : State) : State :=
  mkState (stream s) (capturedImages s) (isAnalyzing s) v (viewMode s) (cropTarget s).

Definition setViewMode (v : ViewMode) (s : State) : State :=
  mkState (stream s) (capturedImages s) (isAnalyzing s) (error s) v (cropTarget s).

Definition setCropTarget (v : option CapturedImage) (s : State) : State :=
  mkState (stream s) (capturedImages s) (isAnalyzing s) (error s) (viewMode s) v.

(** *** Captured images *)

(** What [capturePhoto] reads of the page, the clock and the random
    generator. *)
Record CaptureEnv : Type := mkCaptureEnv {
  videoRef_current : bool;
  canvasRef_current : bool;
  getContext : bool;
  (** [canvas.toDataURL('image/jpeg', 0.8)] after the frame is drawn *)
  toDataURL : string;
  (** [Date.now().toString() + Math.random().toString()] *)
  Date_now_Math_random : string
}.

Definition capturePhoto (env : CaptureEnv) (s : State) : State :=
  if (videoRef_current env && canvasRef_current env)%bool then
    if getContext env then
      let dataUrl := toDataURL env in
      setCapturedImages
        (fun prev =>
           (prev ++ [ {| id := Date_now_Math_random env; url := dataUrl;
                         selected := true |} ])%list)
        s
    else s
  else s.

Definition toggleImageSelection (id' : string) (s : State) : State :=
  setCapturedImages
    (fun prev =>
       (fun img =>
          if decide (id img = id')
          then {| id := id img; url := url img; selected := negb (selected img) |}
          else img) <$> prev)
    s.

(** [confirmed] is the answer to [window.confirm("Delete this image?")]. *)
Definition deleteImage (id' : string) (confirmed : bool) (s : State) : State :=
  if confirmed then
    setCapturedImages (fun prev => filter (fun img => id img <> id') prev) s
  else s.

Definition deleteSelectedImages (confirmed : bool) (s : State) : State :=
  if confirmed then
    setCapturedImages (fun prev => filter (fun img => negb (selected img)) prev) s
  else s.

Definition selectAll (select : bool) (s : State) : State :=
  setCapturedImages
    (fun prev =>
       (fun img => {| id := id img; url := url img; selected := select |}) <$> prev)
    s.

Definition openCropModal (img : CapturedImage) (s : State) : State :=
  setCropTarget (Some img) s.

Definition handleCropConfirm (id' newUrl : string) (s : State) : State :=
  setCropTarget None
    (setCapturedImages
       (fun prev =>
          (fun img =>
             if decide (id img = id')
             then {| id := id img; url := newUrl; selected := selected img |}
             else img) <$> prev)
       s).

(** [<CropModal image={cropTarget} onConfirm={handleCropConfirm} />]: a
    click on "Apply Crop". The modal is rendered only while [cropTarget]
    is set; the result is the new state and the alerts shown. *)
Definition applyCrop (getContext : bool) (toDataURL : string -> CropModal.DrawImage -> string)
    (m : CropModal.Modal) (s : State) : State * list string :=
  match CropModal.handleConfirm getContext toDataURL m with
  | CropModal.OnConfirm _ id' newUrl => (handleCropConfirm id' newUrl s, [])
  | CropModal.Alert msg => (s, [msg])
  | CropModal.NoImage | CropModal.NoContext => (s, [])
  end.

(** *** Batch analysis *)

(** A promise that has settled: when, and how. *)
Inductive Settlement (A : Type) : Type :=
| Fulfilled (value : A)
| Rejected (reason : string).
Arguments Fulfilled {A} value.
Arguments Rejected {A} reason.

Record Promise (A : Type) : Type := mkPromise {
  settledAt : nat;
  settlement : Settlement A
}.
Arguments mkPromise {A} settledAt settlement.
Arguments settledAt {A} p.
Arguments settlement {A} p.

Definition isRejected {A : Type} (p : Promise A) : Prop :=
  match settlement p with Rejected _ => True | Fulfilled _ => False end.

#[global] Instance isRejected_dec {A : Type} (p : Promise A) : Decision (isRejected p).
Proof. unfold isRejected. destruct (settlement p); apply _. Defined.

(** [Promise.all]: fulfilled with every value, in the order of the
    input, once the last input is fulfilled; rejected with the reason
    of the input that rejects first, as soon as it rejects. *)
Fixpoint Promise_all {A : Type} (ps : list (Promise A)) : Promise (list A) :=
  match ps with
  | [] => mkPromise 0 (Fulfilled [])
  | p :: ps' =>
      let rest := Promise_all ps' in
      match settlement p, settlement rest with
      | Fulfilled v, Fulfilled vs =>
          mkPromise (Nat.max (settledAt p) (settledAt rest)) (Fulfilled (v :: vs))
      | Fulfilled _, Rejected r => mkPromise (settledAt rest) (Rejected r)
      | Rejected r, Fulfilled _ => mkPromise (settledAt p) (Rejected r)
      | Rejected r, Rejected r' =>
          if (settledAt p <=? settledAt rest)%nat
          then mkPromise (settledAt p) (Rejected r)
          else mkPromise (settledAt rest) (Rejected r')
      end
  end.

(** What one call of [handleBatchAnalyze] did. *)
Record BatchRun (AnalysisResult : Type) : Type := mkBatchRun {
  (** the state cells once the handler is over *)
  after : State;
  (** the arguments of the calls of [analyzeImageWithPi], in call order *)
  analyzed : list string;
  (** the argument of the call of the [onAnalysisComplete] prop, if any *)
  onAnalysisComplete : option (list AnalysisResult);
  (** whether the [catch] block ran *)
  caught : bool;
  (** when the [await] resumed, if it was reached *)
  resumedAt : option nat
}.
Arguments mkBatchRun {AnalysisResult} after analyzed onAnalysisComplete caught resumedAt.
Arguments after {AnalysisResult} b.
Arguments analyzed {AnalysisResult} b.
Arguments onAnalysisComplete {AnalysisResult} b.
Arguments caught {AnalysisResult} b.
Arguments resumedAt {AnalysisResult} b.

Definition imagesToProcess (analyzeAll : bool) (s : State) : list CapturedImage :=
  if analyzeAll then capturedImages s
  else filter (fun img => selected img) (capturedImages s).

Section Batch.

(** [AnalysisResult] of [types.ts] and [analyzeImageWithPi] of
    [services/piService.ts]: the result type and the remote call. *)
Context {AnalysisResult : Type}.
Variable analyzeImageWithPi : string -> Promise AnalysisResult.

Definition handleBatchAnalyze (analyzeAll : bool) (s : State)
    : BatchRun AnalysisResult :=
  let imagesToProcess := imagesToProcess analyzeAll s in
  if decide (length imagesToProcess = 0) then
    mkBatchRun s [] None false None
  else
    let s1 := setIsAnalyzing true s in
    let promises := (fun img => analyzeImageWithPi (url img)) <$> imagesToProcess in
    let all := Promise_all promises in
    match settlement all with
    | Fulfilled results =>
        mkBatchRun s1 (url <$> imagesToProcess) (Some results) false
                   (Some (settledAt all))
    | Rejected err =>
        let s2 := setError
                    (Some "Connection to Raspberry Pi failed during batch analysis.")
                    s1 in
        let s3 := setIsAnalyzing false s2 in
        mkBatchRun s3 (url <$> imagesToProcess) None true (Some (settledAt all))
    end.

End Batch.

(** *** What the review screen derives from the cells *)

(** [selectedCount], computed at every render of the review screen. *)
Definition selectedCount (s : State) : nat :=
  length (filter (fun i => selected i) (capturedImages s)).

(** The [disabled] attribute of the "Analyze Selected" button. *)
Definition analyzeSelectedDisabled (s : State) : bool :=
  (bool_decide (selectedCount s = 0) || isAnalyzing s)%bool.

(** The [disabled] attribute of the "Analyze All" button. *)
Definition analyzeAllDisabled (s : State) : bool :=
  (bool_decide (length (capturedImages s) = 0) || isAnalyzing s)%bool.

(** The thumbnail of the "Review" button of the camera screen:
    [capturedImages[capturedImages.length-1].url], rendered only when
    [capturedImages.length > 0]. *)
Definition reviewThumbnail (s : State) : option string :=
  url <$> last (capturedImages s).

(** *** The camera stream *)

(** [stopCamera], with the [stream] its closure holds: every track of
    the stream is stopped and the cell is cleared. [live] is the set of
    tracks that the device still delivers. *)
Definition stopCamera (stream : option MediaStream) (s : State) (live : gset nat)
    : State * gset nat :=
  match stream with
  | Some stream =>
      (setStream None s,
       foldl (fun live track => live ∖ {[ track ]}) live (getTracks stream))
  | None => (s, live)
  end.

(** [startCamera] after [getUserMedia] resolved with [mediaStream]. *)
Definition startCamera_resolved (mediaStream : MediaStream) (s : State) : State :=
  setError None (setStream (Some mediaStream) s).

(** [startCamera] after [getUserMedia] rejected. *)
Definition startCamera_rejected (s : State) : State :=
  setError (Some "Unable to access camera. Please check permissions.") s.

(** A mounted component: its state cells, and the [stream] that the
    render of the last run of the effect saw. The cleanup returned by
    that run, [() => stopCamera()], calls the [stopCamera] of that
    render. *)
Record Instance : Type := mkInstance {
  current : State;
  effectStream : option MediaStream
}.

(** The page: the component if it is mounted, the live tracks, and the
    [getUserMedia] calls not yet settled. The continuation of
    [startCamera] calls the setters of the component that made the call:
    [pending] counts the calls made by the component mounted now,
    [orphaned] the calls made by components that are unmounted since,
    whose setters do nothing any more. *)
Record Page : Type := mkPage {
  component : option Instance;
  live : gset nat;
  pending : nat;
  orphaned : nat
}.

Definition emptyPage : Page :=
  {| component := None; live := ∅; pending := 0; orphaned := 0 |}.

Inductive PageEvent : Type :=
| Mount                                         (* App renders [<CameraView />] *)
| GetUserMediaResolved (mediaStream : MediaStream)  (* a call of the mounted component *)
| GetUserMediaRejected                              (* a call of the mounted component *)
| SetViewMode (v : ViewMode)                    (* [setViewMode(v)] of a button *)
| RetryCamera                                   (* the "Retry Camera" button *)
| Unmount                                       (* [onBack], or the end of an analysis *)
| OrphanResolved (mediaStream : MediaStream)    (* a call of an unmounted component *)
| OrphanRejected.                               (* a call of an unmounted component *)

(** The body of the [useEffect] on [[viewMode]] and its cleanup. The
    body runs with the cells [s] of the render that scheduled it; the
    cleanup of the previous run goes first, with the stream of its own
    render. *)
Definition runEffect (previous : option (option MediaStream)) (s : State) (p : Page)
    : Page :=
  let '(s1, live1) :=
    match previous with
    | Some stream => stopCamera stream s (live p)
    | None => (s, live p)
    end in
  match viewMode s with
  | camera =>
      (* [startCamera()]: one more [getUserMedia] call in flight *)
      mkPage (Some (mkInstance s1 (stream s))) live1 (S (pending p)) (orphaned p)
  | review =>
      let '(s2, live2) := stopCamera (stream s) s1 live1 in
      mkPage (Some (mkInstance s2 (stream s))) live2 (pending p) (orphaned p)
  end.

Definition step (e : PageEvent) (p : Page) : Page :=
  match e, component p with
  | Mount, None => runEffect None initialState p
  | Mount, Some _ => p
  | GetUserMediaResolved mediaStream, Some i =>
      match pending p with
      | 0 => p
      | S n =>
          mkPage (Some (mkInstance (startCamera_resolved mediaStream (current i))
                                   (effectStream i)))
                 (live p ∪ list_to_set (getTracks mediaStream)) n (orphaned p)
      end
  | GetUserMediaRejected, Some i =>
      match pending p with
      | 0 => p
      | S n =>
          mkPage (Some (mkInstance (startCamera_rejected (current i)) (effectStream i)))
                 (live p) n (orphaned p)
      end
  | SetViewMode v, Some i =>
      match viewMode (current i), v with
      | camera, camera | review, review => p      (* same value: no render *)
      | _, _ => runEffect (Some (effectStream i)) (setViewMode v (current i)) p
      end
  | RetryCamera, Some i =>
      match viewMode (current i), error (current i) with
      | camera, Some _ => mkPage (component p) (live p) (S (pending p)) (orphaned p)
      | _, _ => p
      end
  | Unmount, Some i =>
      (* the calls of the component in flight outlive it *)
      let '(_, live') := stopCamera (effectStream i) (current i) (live p) in
      mkPage None live' 0 (orphaned p + pending p)
  | OrphanResolved mediaStream, _ =>
      (* the stream is acquired; [setStream] and [setError] of the
         unmounted component do nothing *)
      match orphaned p with
      | 0 => p
      | S n =>
          mkPage (component p) (live p ∪ list_to_set (getTracks mediaStream))
                 (pending p) n
      end
  | OrphanRejected, _ =>
      match orphaned p with
      | 0 => p
      | S n => mkPage (component p) (live p) (pending p) n
      end
  | GetUserMediaResolved _, None | GetUserMediaRejected, None
  | SetViewMode _, None | RetryCamera, None | Unmount, None => p
  end.

Definition run (es : list PageEvent) (p : Page) : Page :=
  foldl (fun p e => step e p) p es.

End CameraView.

(** ** The image store, as a sequence of operations *)

Module ImageStore.
Import CameraView.

(** The two operations on the store that change its entries: a capture
    that reaches [setCapturedImages] (the refs and the context are
    there), and a deletion that the user confirmed. *)
Inductive StoreOp : Type :=
| Add (buffer stamp : string)
| Remove (id' : string).

#[global] Instance StoreOp_eq_dec : EqDecision StoreOp.
Proof. solve_decision. Defined.

Definition apply (op : StoreOp) (s : State) : State :=
  match op with
  | Add buffer stamp => capturePhoto (mkCaptureEnv true true true buffer stamp) s
  | Remove id' => deleteImage id' true s
  end.

Definition applyAll (ops : list StoreOp) (s : State) : State :=
  foldl (fun s op => apply op s) s ops.

(** [all()]: the entries, in store order. *)
Definition all (s : State) : list CapturedImage := capturedImages s.

(** The ids that the captures of [ops] drew, in order. *)
Fixpoint stamps (ops : list StoreOp) : list string :=
  match ops with
  | [] => []
  | Add _ stamp :: ops' => stamp :: stamps ops'
  | Remove _ :: ops' => stamps ops'
  end.

(** Every entry that [ops] adds, in insertion order. *)
Fixpoint added (ops : list StoreOp) : list CapturedImage :=
  match ops with
  | [] => []
  | Add buffer stamp :: ops' => mkCapturedImage stamp buffer true :: added ops'
  | Remove _ :: ops' => added ops'
  end.

(** The added entries that no later operation removes, in insertion
    order. *)
Fixpoint survivors (ops : list StoreOp) : list CapturedImage :=
  match ops with
  | [] => []
  | Add buffer stamp :: ops' =>
      if decide (Remove stamp ∈ ops') then survivors ops'
      else mkCapturedImage stamp buffer true :: survivors ops'
  | Remove _ :: ops' => survivors ops'
  end.

(** The error of the specification's store operations. *)
Inductive StoreError : Type := NotFound.

#[global] Instance StoreError_eq_dec : EqDecision StoreError.
Proof. solve_decision. Defined.

(** [toggleSelection(id)] in the words of the specification: flips
    [selected], signals [NotFound] if [id] is absent. *)
Definition spec_toggleSelection (id' : string) (store : list CapturedImage)
    : StoreError + list CapturedImage :=
  if decide (id' ∈ id <$> store) then
    inr ((fun img =>
            if decide (id img = id')
            then mkCapturedImage (id img) (url img) (negb (selected img))
            else img) <$> store)
  else inl NotFound.

(** [replaceBuffer(id, newBuffer)] in the words of the specification:
    replaces only the buffer, fails with [NotFound] if [id] is absent. *)
Definition spec_replaceBuffer (id' newBuffer : string) (store : list CapturedImage)
    : StoreError + list CapturedImage :=
  if decide (id' ∈ id <$> store) then
    inr ((fun img =>
            if decide (id img = id')
            then mkCapturedImage (id img) newBuffer (selected img)
            else img) <$> store)
  else inl NotFound.

(** How a handler of [CameraView] that only calls state setters ends:
    it returns, with the store of its final state. None of them throws,
    alerts or writes [error]. *)
Definition returns (s : State) : StoreError + list CapturedImage :=
  inr (capturedImages s).

End ImageStore.

(** ** The crop transform, in the words of the specification *)

Module CropTransform.

(** A rectangle: corner [x], [y] and size [w], [h]. *)
Record Rect : Type := mkRect { x : float; y : float; w : float; h : float }.

(** The display rectangle of a request: [x = min(start.x, end.x)],
    [y = min(start.y, end.y)], [w = |end.x - start.x|],
    [h = |end.y - start.y|]. *)
Definition spec_displayRect (startPoint endPoint : CropModal.Pos) : Rect :=
  {| x := Math.min (CropModal.x startPoint) (CropModal.x endPoint);
     y := Math.min (CropModal.y startPoint) (CropModal.y endPoint);
     w := Math.abs (sub (CropModal.x endPoint) (CropModal.x startPoint));
     h := Math.abs (sub (CropModal.y endPoint) (CropModal.y startPoint)) |}.

(** [scale = nativeSize.w / displaySize.w]. *)
Definition spec_scale (nativeSize_w displaySize_w : float) : float :=
  div nativeSize_w displaySize_w.

(** The rectangle multiplied by [scale] on both axes and both
    dimensions. *)
Definition spec_scaled (scale : float) (r : Rect) : Rect :=
  {| x := mul (x r) scale; y := mul (y r) scale;
     w := mul (w r) scale; h := mul (h r) scale |}.

(** The rectangle that [handleConfirm] computes, and the one it draws
    from. *)
Definition nativeRect (el : CropModal.HTMLImageElement) (m : CropModal.Modal) : Rect :=
  mkRect (CropModal.crop_x el m) (CropModal.crop_y el m)
         (CropModal.crop_w el m) (CropModal.crop_h el m).

Definition sourceRect (call : CropModal.DrawImage) : Rect :=
  mkRect (CropModal.sx call) (CropModal.sy call)
         (CropModal.sWidth call) (CropModal.sHeight call).

(** The selection box drawn on screen, as a rectangle. *)
Definition styleRect (st : CropModal.Style) : Rect :=
  mkRect (CropModal.left st) (CropModal.top st)
         (CropModal.style_width st) (CropModal.height st).

End CropTransform.

(** ** The batch report, in the words of the specification *)

Module BatchDispatcher.
Import CameraView.

(** [outcomes]: per image, its id and a tagged success or failure;
    [batchFailed]: the batch as a whole could not be attempted. *)
Record BatchReport (AnalysisResult : Type) : Type := mkBatchReport {
  outcomes : list (string * Settlement AnalysisResult);
  batchFailed : bool
}.
Arguments mkBatchReport {AnalysisResult} outcomes batchFailed.
Arguments outcomes {AnalysisResult} b.
Arguments batchFailed {AnalysisResult} b.

(** [dispatch(images, analyze)] in the words of the specification:
    every image gets its own outcome, in dispatch order, and a failure
    of one image is recorded in its outcome. *)
Definition spec_dispatch {AnalysisResult : Type}
    (analyze : string -> Promise AnalysisResult) (images : list CapturedImage)
    : BatchReport AnalysisResult :=
  {| outcomes := (fun img => (id img, settlement (analyze (url img)))) <$> images;
     batchFailed := false |}.

(** What a run of [handleBatchAnalyze] on [images] reports: the results
    handed to [onAnalysisComplete], paired with the images in order, and
    whether the batch error was raised. *)
Definition reportOf {AnalysisResult : Type}
    (images : list CapturedImage) (r : BatchRun AnalysisResult)
    : BatchReport AnalysisResult :=
  {| outcomes :=
       match onAnalysisComplete r with
       | Some results => zip_with (fun img res => (id img, Fulfilled res)) images results
       | None => []
       end;
     batchFailed := caught r |}.

End BatchDispatcher.

(** ** Component [LoginForm] *)

Module LoginForm.

(** The [useState] cells of the form. *)
Record State : Type := mkState {
  username : string;
  password : string;
  showPassword : bool;
  error : string
}.

Definition initialState : State :=
  {| username := ""; password := ""; showPassword := false; error := "" |}.

Definition setUsername (v : string) (s : State) : State :=
  mkState v (password s) (showPassword s) (error s).

Definition setPassword (v : string) (s : State) : State :=
  mkState (username s) v (showPassword s) (error s).

Definition setError (v : string) (s : State) : State :=
  mkState (username s) (password s) (showPassword s) v.

(** [handleSubmit]: the new cells and the argument of the one call of the
    [onLogin] prop. *)
Definition handleSubmit (s : State) : State * bool :=
  if (bool_decide (username s = "ALLEGRI") && bool_decide (password s = "ALLEGRI@123"))%bool
  then (s, true)
  else (setError "Invalid credentials. Please check your access details." s, false).

End LoginForm.

(** ** Component [HistoryView] *)

Module HistoryView.

(** The values of the [filter] cell. *)
Inductive Filter : Type := all | completed | pending | failed.

(** The string that a value of the cell is. *)
Definition filterName (f : Filter) : string :=
  match f with
  | all => "all"
  | completed => "completed"
  | pending => "pending"
  | failed => "failed"
  end.

(** The [useState] cells of the view. [selectedIds] is a [Set<string>];
    the view reads its size and its members only. *)
Record State : Type := mkState {
  filter : Filter;
  selectedIds : gset string
}.

Definition initialState : State := {| filter := all; selectedIds := ∅ |}.

Definition setFilter (v : Filter) (s : State) : State := mkState v (selectedIds s).

Definition setSelectedIds (v : gset string) (s : State) : State := mkState (filter s) v.

(** A call of a prop of the view. *)
Inductive Callback : Type :=
| OnClearHistory
| OnDeleteHistory (ids : list string).

Definition toggleSelection (id' : string) (s : State) : State :=
  let newSet := selectedIds s in
  if decide (id' ∈ newSet)
  then setSelectedIds (newSet ∖ {[ id' ]}) s
  else setSelectedIds (newSet ∪ {[ id' ]}) s.

(** [confirmed] is the answer to [window.confirm], asked only when there
    are records. *)
Definition handleClearAllClick (results_length : nat) (confirmed : bool) (s : State)
    : State * option Callback :=
  if decide (results_length = 0) then (s, None)
  else if confirmed then (setSelectedIds ∅ s, Some OnClearHistory)
  else (s, None).

(** [confirmed] is the answer to [window.confirm], asked only when the
    selection is not empty. [Array.from(selectedIds)] lists the members
    of the set: the list here has the same members, in the order of
    [elements] and not in the order of the clicks. [onDeleteHistory]
    reads it through [includes] only. *)
Definition handleDeleteSelected (confirmed : bool) (s : State) : State * option Callback :=
  if decide (size (selectedIds s) = 0) then (s, None)
  else if confirmed
  then (setSelectedIds ∅ s, Some (OnDeleteHistory (elements (selectedIds s))))
  else (s, None).

Section Results.

(** [AnalysisResult] of [types.ts], with the two fields that the view
    computes with: [id] and [status]. *)
Context {AnalysisResult : Type}.
Variable result_id : AnalysisResult -> string.
Variable result_status : AnalysisResult -> string.

(** [filteredResults], computed at every render. *)
Definition filteredResults (results : list AnalysisResult) (s : State)
    : list AnalysisResult :=
  base.filter
    (fun result =>
       Is_true match filter s with
               | all => true
               | f => bool_decide (result_status result = filterName f)
               end)
    results.

(** The cards in render order: [filteredResults.slice().reverse()]. *)
Definition cards (results : list AnalysisResult) (s : State) : list AnalysisResult :=
  reverse (filteredResults results s).

(** Whether the card of a record is drawn as selected:
    [selectedIds.has(result.id)]. *)
Definition cardChecked (result : AnalysisResult) (s : State) : bool :=
  bool_decide (result_id result ∈ selectedIds s).

End Results.

End HistoryView.

(** ** Component [App] *)

Module App.

Inductive ViewState : Type := LOGIN | DASHBOARD | CAMERA | HISTORY | PROFILE.

(** [UserProfile] of [types.ts], with the fields that [handleLogin]
    writes. *)
Record UserProfile : Type := mkUserProfile {
  username : string;
  role : string;
  department : string;
  avatarUrl : string
}.

(** The [useState] cells of the application. *)
Record State (AnalysisResult : Type) : Type := mkState {
  view : ViewState;
  user : option UserProfile;
  analysisHistory : list AnalysisResult;
  showHelp : bool
}.
Arguments mkState {AnalysisResult} view user analysisHistory showHelp.
Arguments view {AnalysisResult} s.
Arguments user {AnalysisResult} s.
Arguments analysisHistory {AnalysisResult} s.
Arguments showHelp {AnalysisResult} s.

Section Handlers.

Context {AnalysisResult : Type}.
(** The [id] field of an [AnalysisResult]. *)
Variable result_id : AnalysisResult -> string.

Definition initialState : State AnalysisResult :=
  {| view := LOGIN; user := None; analysisHistory := []; showHelp := false |}.

Definition setView (v : ViewState) (s : State AnalysisResult) : State AnalysisResult :=
  mkState v (user s) (analysisHistory s) (showHelp s).

Definition setUser (v : option UserProfile) (s : State AnalysisResult)
    : State AnalysisResult :=
  mkState (view s) v (analysisHistory s) (showHelp s).

Definition setAnalysisHistory
    (f : list AnalysisResult -> list AnalysisResult) (s : State AnalysisResult)
    : State AnalysisResult :=
  mkState (view s) (user s) (f (analysisHistory s)) (showHelp s).

Definition handleLogin (success : bool) (s : State AnalysisResult) : State AnalysisResult :=
  if success then
    setView DASHBOARD
      (setUser (Some {| username := "ALLEGRI"; role := "Senior Lab Technician";
                        department := "Microbiology"; avatarUrl := "" |}) s)
  else s.

Definition handleLogout (s : State AnalysisResult) : State AnalysisResult :=
  setView LOGIN (setUser None s).

Definition handleAnalysisComplete (results : list AnalysisResult)
    (s : State AnalysisResult) : State AnalysisResult :=
  setView HISTORY (setAnalysisHistory (fun prev => prev ++ results) s).

Definition handleClearHistory (s : State AnalysisResult) : State AnalysisResult :=
  setAnalysisHistory (fun _ => []) s.

Definition handleDeleteHistory (ids : list string) (s : State AnalysisResult)
    : State AnalysisResult :=
  setAnalysisHistory
    (fun prev => filter (fun item => result_id item ∉ ids) prev) s.

(** [<LoginForm onLogin={handleLogin} />]: a submit of the form. *)
Definition submitLogin (form : LoginForm.State) (s : State AnalysisResult)
    : LoginForm.State * State AnalysisResult :=
  let '(form', success) := LoginForm.handleSubmit form in
  (form', handleLogin success s).

(** [<HistoryView onClearHistory={handleClearHistory}
    onDeleteHistory={handleDeleteHistory} />]: a call of a prop of the
    view, if the handler of the view made one. *)
Definition onHistory (call : option HistoryView.Callback) (s : State AnalysisResult)
    : State AnalysisResult :=
  match call with
  | Some HistoryView.OnClearHistory => handleClearHistory s
  | Some (HistoryView.OnDeleteHistory ids) => handleDeleteHistory ids s
  | None => s
  end.

(** [<CameraView onAnalysisComplete={handleAnalysisComplete} />]: a click
    on one of the two "Analyze" buttons of the review screen. *)
Definition analyzeBatch (analyze : string -> CameraView.Promise AnalysisResult)
    (analyzeAll : bool) (cam : CameraView.State) (s : State AnalysisResult)
    : CameraView.BatchRun AnalysisResult * State AnalysisResult :=
  let r := CameraView.handleBatchAnalyze analyze analyzeAll cam in
  (r, match CameraView.onAnalysisComplete r with
      | Some results => handleAnalysisComplete results s
      | None => s
      end).

(** What can happen to the application: a call of one of its handlers by
    a child component or by one of its own buttons. *)
Inductive Action : Type :=
| Login (success : bool)
| Logout
| AnalysisComplete (results : list AnalysisResult)
| ClearHistory
| DeleteHistory (ids : list string)
| Navigate (v : ViewState)            (* [setView(v)] of a button *)
| ToggleHelp.                         (* [setShowHelp(!showHelp)] *)

Definition setShowHelp (v : bool) (s : State AnalysisResult) : State AnalysisResult :=
  mkState (view s) (user s) (analysisHistory s) v.

Definition react (s : State AnalysisResult) (a : Action) : State AnalysisResult :=
  match a with
  | Login success => handleLogin success s
  | Logout => handleLogout s
  | AnalysisComplete results => handleAnalysisComplete results s
  | ClearHistory => handleClearHistory s
  | DeleteHistory ids => handleDeleteHistory ids s
  | Navigate v => setView v s
  | ToggleHelp => setShowHelp (negb (showHelp s)) s
  end.

(** Whether an action deletes records. *)
Definition deletes (a : Action) : bool :=
  match a with
  | ClearHistory | DeleteHistory _ => true
  | _ => false
  end.

(** The results that the actions hand to [handleAnalysisComplete], in
    order. *)
Fixpoint delivered (actions : list Action) : list AnalysisResult :=
  match actions with
  | [] => []
  | AnalysisComplete results :: actions' => results ++ delivered actions'
  | _ :: actions' => delivered actions'
  end.

End Handlers.

End App.

(** ** Array callbacks, named *)

(** The array callback of [toggleImageSelection]. *)
Definition flipAt (id' : string) (img : CapturedImage) : CapturedImage :=
  if decide (id img = id')
  then {| id := id img; url := url img; selected := negb (selected img) |}
  else img.

(** The array callback of [handleCropConfirm]. *)
Definition rewriteAt (id' newUrl : string) (img : CapturedImage) : CapturedImage :=
  if decide (id img = id')
  then {| id := id img; url := newUrl; selected := selected img |}
  else img.

(** * Properties *)

Import CameraView.

(** A decidable fact about concrete data, settled by evaluation. *)
Ltac by_evaluation := apply (bool_decide_unpack _); vm_compute; exact I.

(** ** Helpers on the state setters *)

Lemma capturedImages_setCapturedImages f s :
  capturedImages (setCapturedImages f s) = f (capturedImages s).
Proof. reflexivity. Qed.

Lemma setCapturedImages_id f s :
  f (capturedImages s) = capturedImages s -> setCapturedImages f s = s.
Proof. destruct s as [st imgs an er vm ct]; unfold setCapturedImages; simpl. by intros ->. Qed.

Lemma toggleImageSelection_images id' s :
  capturedImages (toggleImageSelection id' s) = flipAt id' <$> capturedImages s.
Proof. reflexivity. Qed.

Lemma handleCropConfirm_images id' newUrl s :
  capturedImages (handleCropConfirm id' newUrl s) = rewriteAt id' newUrl <$> capturedImages s.
Proof. reflexivity. Qed.

Lemma flipAt_flipAt id' img : flipAt id' (flipAt id' img) = img.
Proof.
  unfold flipAt. destruct img as [i u b]; simpl.
  destruct (decide (i = id')) as [->|Hne]; simpl.
  - rewrite decide_True by done. by rewrite negb_involutive.
  - by rewrite decide_False.
Qed.

Lemma flipAt_id id' img : id (flipAt id' img) = id img.
Proof. unfold flipAt. by destruct (decide _). Qed.

Lemma flipAt_url id' img : url (flipAt id' img) = url img.
Proof. unfold flipAt. by destruct (decide _). Qed.

Lemma fmap_absent (f : CapturedImage -> CapturedImage) (id' : string)
    (imgs : list CapturedImage) :
  (forall img, id img <> id' -> f img = img) ->
  id' ∉ id <$> imgs -> f <$> imgs = imgs.
Proof.
  intros Hf. induction imgs as [|img imgs IH]; [done|].
  rewrite fmap_cons, not_elem_of_cons. intros [Hne Hni].
  rewrite fmap_cons, IH by done. by rewrite Hf.
Qed.

Lemma filter_keeps_all {A} (P : A -> Prop) `{!forall a, Decision (P a)} (l : list A) :
  (forall a, a ∈ l -> P a) -> filter P l = l.
Proof.
  induction l as [|a l IH]; intros HP; [done|].
  rewrite filter_cons_True by (apply HP; left).
  f_equal. apply IH. intros b Hb. apply HP. by right.
Qed.

(** ** The store under captures and deletions *)

Section StoreOps.
Import ImageStore.

Lemma apply_Add buffer stamp s :
  capturedImages (apply (Add buffer stamp) s)
  = capturedImages s ++ [mkCapturedImage stamp buffer true].
Proof. reflexivity. Qed.

Lemma apply_Remove id' s :
  capturedImages (apply (Remove id') s)
  = filter (fun img => id img <> id') (capturedImages s).
Proof. reflexivity. Qed.

(** The store after [ops]: what was there and is not removed, then what
    [ops] adds and does not remove afterwards. *)
Lemma applyAll_images ops : forall s,
  capturedImages (applyAll ops s)
  = filter (fun img => Remove (id img) ∉ ops) (capturedImages s) ++ survivors ops.
Proof.
  induction ops as [|[buffer stamp|id'] ops IH]; intros s.
  - simpl. rewrite app_nil_r. symmetry. apply filter_keeps_all.
    intros img _. apply not_elem_of_nil.
  - change (applyAll (Add buffer stamp :: ops) s)
      with (applyAll ops (apply (Add buffer stamp) s)).
    rewrite IH, apply_Add, filter_app. simpl survivors.
    rewrite <- (assoc_L (++)). f_equal.
    + apply list_filter_iff. intros img. rewrite not_elem_of_cons.
      split; [intros ?; split; [discriminate | done] | intros [_ ?]; done].
    + rewrite filter_cons, filter_nil. simpl id.
      destruct (decide (Remove stamp ∈ ops)) as [Hin|Hni].
      * by rewrite decide_False by (intros Hn; by apply Hn).
      * by rewrite decide_True.
  - change (applyAll (Remove id' :: ops) s)
      with (applyAll ops (apply (Remove id') s)).
    rewrite IH, apply_Remove, list_filter_filter. simpl survivors. f_equal.
    apply list_filter_iff. intros img. rewrite not_elem_of_cons.
    split; [intros [? ?]; split; [congruence|done] | intros [? ?]; split; [done|congruence]].
Qed.

Lemma survivors_sublist ops : survivors ops `sublist_of` added ops.
Proof.
  induction ops as [|[buffer stamp|id'] ops IH]; simpl; [done| |done].
  destruct (decide _); [by apply sublist_cons | by apply sublist_skip].
Qed.

Lemma added_ids ops : id <$> added ops = stamps ops.
Proof.
  induction ops as [|[buffer stamp|id'] ops IH]; cbn [added stamps]; [done| |done].
  by rewrite fmap_cons, IH.
Qed.

Lemma added_take n ops : added (take n ops) `sublist_of` added ops.
Proof.
  revert n. induction ops as [|[buffer stamp|id'] ops IH]; intros [|n]; simpl;
    try done.
  - apply sublist_nil_l.
  - by apply sublist_skip.
  - apply sublist_nil_l.
Qed.

End StoreOps.

(** C5 (as the code has it). For every sequence of captures and confirmed
    deletions from the initial (empty) store, after every prefix of the
    sequence [all()] is exactly the entries added and not removed since,
    in insertion order; and provided the captures drew pairwise distinct
    ids (the code draws them from [Date.now()] and [Math.random()] and
    checks nothing), the store never holds two entries with the same
    id. *)
Theorem store_ids_unique_in_insertion_order (ops : list ImageStore.StoreOp) (n : nat) :
  let s := ImageStore.applyAll (take n ops) initialState in
  ImageStore.all s = ImageStore.survivors (take n ops)
  /\ ImageStore.all s `sublist_of` ImageStore.added ops
  /\ (NoDup (ImageStore.stamps ops) -> NoDup (id <$> ImageStore.all s)).
Proof.
  intros s.
  assert (Hall : ImageStore.all s = ImageStore.survivors (take n ops)).
  { unfold ImageStore.all, s. by rewrite applyAll_images. }
  assert (Hsub : ImageStore.all s `sublist_of` ImageStore.added ops).
  { rewrite Hall. etrans; [apply survivors_sublist | apply added_take]. }
  split; [done|]. split; [done|]. intros Hfresh.
  apply (sublist_NoDup _ (id <$> ImageStore.added ops)).
  - by rewrite added_ids.
  - by apply fmap_sublist.
Qed.

Lemma store_ids_unique_in_insertion_order_witness :
  let ops := [ImageStore.Add "data:a" "17.1"; ImageStore.Add "data:b" "17.2";
              ImageStore.Remove "17.1"; ImageStore.Add "data:c" "18.3";
              ImageStore.Remove "17.1"] in
  NoDup (ImageStore.stamps ops)
  /\ NoDup (id <$> ImageStore.all (ImageStore.applyAll (take 4 ops) initialState))
  /\ ImageStore.all (ImageStore.applyAll (take 4 ops) initialState)
     = [mkCapturedImage "17.2" "data:b" true; mkCapturedImage "18.3" "data:c" true].
Proof.
  intros ops.
  assert (Hfresh : NoDup (ImageStore.stamps ops)).
  { by_evaluation. }
  destruct (store_ids_unique_in_insertion_order ops 4) as (Hall & _ & Hnd).
  split; [exact Hfresh|]. split; [exact (Hnd Hfresh)|]. rewrite Hall. reflexivity.
Defined.

(** C5, as stated, fails: [capturePhoto] does not check that the id it
    draws is new. Two captures that draw the same id leave two entries
    with that id in the store. *)
Lemma store_holds_duplicate_id_on_equal_stamps :
  let ops := [ImageStore.Add "data:a" "170.5"; ImageStore.Add "data:b" "170.5"] in
  ImageStore.all (ImageStore.applyAll ops initialState)
  = [mkCapturedImage "170.5" "data:a" true; mkCapturedImage "170.5" "data:b" true]
  /\ ~ NoDup (id <$> ImageStore.all (ImageStore.applyAll ops initialState)).
Proof.
  intros ops. split; [reflexivity|].
  intros Hnd. apply NoDup_cons in Hnd as [Hni _]. apply Hni. left.
Qed.

(** C6 (as the code has it). [toggleImageSelection(id)] flips the
    [selected] flag of every entry with that id and of no other, which is
    what the specified [toggleSelection] returns when the id is present;
    when no entry has the id it returns with the state as it was: nothing
    is signalled. *)
Theorem toggleImageSelection_flips_or_ignores (id' : string) (s : State) :
  (forall i img,
      capturedImages s !! i = Some img ->
      capturedImages (toggleImageSelection id' s) !! i
      = Some (if decide (id img = id')
              then mkCapturedImage (id img) (url img) (negb (selected img))
              else img))
  /\ (id' ∈ id <$> capturedImages s ->
      ImageStore.returns (toggleImageSelection id' s)
      = ImageStore.spec_toggleSelection id' (capturedImages s))
  /\ (id' ∉ id <$> capturedImages s -> toggleImageSelection id' s = s).
Proof.
  split; [|split].
  - intros i img Hi. rewrite toggleImageSelection_images, list_lookup_fmap, Hi. done.
  - intros Hin. unfold ImageStore.spec_toggleSelection, ImageStore.returns.
    by rewrite decide_True.
  - intros Hni. apply setCapturedImages_id.
    apply (fmap_absent _ id'); [|done].
    intros img Hne. by rewrite decide_False.
Qed.

Lemma toggleImageSelection_flips_or_ignores_witness :
  let a := mkCapturedImage "17.1" "data:a" true in
  let b := mkCapturedImage "17.2" "data:b" false in
  let s := setCapturedImages (fun _ => [a; b]) initialState in
  capturedImages (toggleImageSelection "17.2" s) !! 1
  = Some (mkCapturedImage "17.2" "data:b" true)
  /\ capturedImages (toggleImageSelection "17.2" s) !! 0 = Some a
  /\ ImageStore.returns (toggleImageSelection "17.2" s)
     = inr [a; mkCapturedImage "17.2" "data:b" true]
  /\ toggleImageSelection "17.9" s = s.
Proof.
  intros a b s.
  destruct (toggleImageSelection_flips_or_ignores "17.2" s) as (Hat & Hspec & _).
  destruct (toggleImageSelection_flips_or_ignores "17.9" s) as (_ & _ & Habsent).
  split; [exact (Hat 1 b eq_refl)|].
  split; [exact (Hat 0 a eq_refl)|].
  split.
  - rewrite Hspec; [reflexivity|]. by_evaluation.
  - apply Habsent. by_evaluation.
Defined.

(** C6, as stated, fails: on an id that is not in the store the specified
    operation signals [NotFound]; the handler returns normally with every
    cell (the [error] cell too) as it was. *)
Lemma toggleImageSelection_absent_not_signalled :
  let a := mkCapturedImage "17.1" "data:a" true in
  let b := mkCapturedImage "17.2" "data:b" false in
  let s := setCapturedImages (fun _ => [a; b]) initialState in
  ImageStore.spec_toggleSelection "17.9" (capturedImages s) = inl ImageStore.NotFound
  /\ ImageStore.returns (toggleImageSelection "17.9" s)
     <> ImageStore.spec_toggleSelection "17.9" (capturedImages s)
  /\ toggleImageSelection "17.9" s = s
  /\ error (toggleImageSelection "17.9" s) = None.
Proof.
  intros a b s.
  split; [reflexivity|]. split; [discriminate|]. split; reflexivity.
Qed.

(** C7 (as the code has it). [handleCropConfirm(id, newUrl)] replaces the
    buffer of every entry with that id, keeping its id and its [selected]
    flag, and leaves every other entry as it was, which is what the
    specified [replaceBuffer] returns when the id is present; when no
    entry has the id the store is left as it was and nothing is
    signalled: the handler returns, and [error] is not written. *)
Theorem handleCropConfirm_replaces_buffer_only (id' newUrl : string) (s : State) :
  (forall i img,
      capturedImages s !! i = Some img ->
      capturedImages (handleCropConfirm id' newUrl s) !! i
      = Some (if decide (id img = id')
              then mkCapturedImage (id img) newUrl (selected img)
              else img))
  /\ (id' ∈ id <$> capturedImages s ->
      ImageStore.returns (handleCropConfirm id' newUrl s)
      = ImageStore.spec_replaceBuffer id' newUrl (capturedImages s))
  /\ (id' ∉ id <$> capturedImages s ->
      capturedImages (handleCropConfirm id' newUrl s) = capturedImages s)
  /\ length (capturedImages (handleCropConfirm id' newUrl s)) = length (capturedImages s)
  /\ error (handleCropConfirm id' newUrl s) = error s.
Proof.
  split; [|split; [|split; [|split]]].
  - intros i img Hi. rewrite handleCropConfirm_images, list_lookup_fmap, Hi. done.
  - intros Hin. unfold ImageStore.spec_replaceBuffer, ImageStore.returns.
    by rewrite decide_True.
  - intros Hni. rewrite handleCropConfirm_images.
    apply (fmap_absent _ id'); [|done].
    intros img Hne. unfold rewriteAt. by rewrite decide_False.
  - by rewrite handleCropConfirm_images, length_fmap.
  - reflexivity.
Qed.

Lemma handleCropConfirm_replaces_buffer_only_witness :
  let a := mkCapturedImage "17.1" "data:a" true in
  let b := mkCapturedImage "17.2" "data:b" false in
  let s := setCapturedImages (fun _ => [a; b]) initialState in
  capturedImages (handleCropConfirm "17.2" "data:crop" s) !! 1
  = Some (mkCapturedImage "17.2" "data:crop" false)
  /\ capturedImages (handleCropConfirm "17.2" "data:crop" s) !! 0 = Some a
  /\ ImageStore.returns (handleCropConfirm "17.2" "data:crop" s)
     = inr [a; mkCapturedImage "17.2" "data:crop" false]
  /\ capturedImages (handleCropConfirm "17.9" "data:crop" s) = [a; b].
Proof.
  intros a b s.
  destruct (handleCropConfirm_replaces_buffer_only "17.2" "data:crop" s)
    as (Hat & Hspec & _).
  destruct (handleCropConfirm_replaces_buffer_only "17.9" "data:crop" s)
    as (_ & _ & Habsent & _).
  split; [exact (Hat 1 b eq_refl)|].
  split; [exact (Hat 0 a eq_refl)|].
  split.
  - rewrite Hspec; [reflexivity|]. by_evaluation.
  - apply Habsent. by_evaluation.
Defined.

(** C7, as stated, fails: on an id that is not in the store the specified
    operation fails with [NotFound]; the handler returns normally with
    the store and the [error] cell as they were. *)
Lemma handleCropConfirm_absent_not_signalled :
  let a := mkCapturedImage "17.1" "data:a" true in
  let b := mkCapturedImage "17.2" "data:b" false in
  let s := setCapturedImages (fun _ => [a; b]) initialState in
  ImageStore.spec_replaceBuffer "17.9" "data:crop" (capturedImages s)
  = inl ImageStore.NotFound
  /\ ImageStore.returns (handleCropConfirm "17.9" "data:crop" s)
     <> ImageStore.spec_replaceBuffer "17.9" "data:crop" (capturedImages s)
  /\ capturedImages (handleCropConfirm "17.9" "data:crop" s) = [a; b]
  /\ error (handleCropConfirm "17.9" "data:crop" s) = None.
Proof.
  intros a b s.
  split; [reflexivity|]. split; [discriminate|]. split; reflexivity.
Qed.

(** C8. Toggling the same id twice gives back the state it started from;
    for an entry with that id, the flag is negated after the first toggle
    and is the prior one after the second. *)
Theorem toggleImageSelection_twice (id' : string) (s : State) :
  toggleImageSelection id' (toggleImageSelection id' s) = s
  /\ forall i img,
       capturedImages s !! i = Some img -> id img = id' ->
       selected <$> capturedImages (toggleImageSelection id' s) !! i
       = Some (negb (selected img))
       /\ selected <$> capturedImages (toggleImageSelection id' (toggleImageSelection id' s)) !! i
          = Some (selected img).
Proof.
  assert (Htwice : toggleImageSelection id' (toggleImageSelection id' s) = s).
  { destruct s as [st imgs an er vm ct].
    unfold toggleImageSelection, setCapturedImages; simpl. f_equal.
    rewrite <- list_fmap_compose. rewrite <- (list_fmap_id imgs) at 2.
    apply list_fmap_ext. intros _ img _. apply (flipAt_flipAt id' img). }
  split; [exact Htwice|].
  intros i img Hi Hid. rewrite Htwice, Hi. split; [|done].
  rewrite toggleImageSelection_images, list_lookup_fmap, Hi. simpl.
  unfold flipAt. by rewrite decide_True.
Qed.

Lemma toggleImageSelection_twice_witness :
  let a := mkCapturedImage "17.1" "data:a" true in
  let b := mkCapturedImage "17.2" "data:b" false in
  let s := setCapturedImages (fun _ => [a; b]) initialState in
  capturedImages s !! 1 = Some b /\ id b = "17.2"
  /\ selected <$> capturedImages (toggleImageSelection "17.2" s) !! 1 = Some true
  /\ selected <$> capturedImages
                    (toggleImageSelection "17.2" (toggleImageSelection "17.2" s)) !! 1
     = Some false.
Proof.
  intros a b s.
  destruct (toggleImageSelection_twice "17.2" s) as (_ & Hflag).
  destruct (Hflag 1 b eq_refl eq_refl) as (Hone & Htwo).
  split; [reflexivity|]. split; [reflexivity|]. split; [exact Hone | exact Htwo].
Defined.

(** C10. [toggleImageSelection] and [selectAll] keep the number of
    entries, their order, and the id and the buffer of each entry; no
    other cell of the state changes. *)
Theorem selection_handlers_keep_entries (id' : string) (select : bool) (s : State) :
  let keeps (s' : State) :=
    length (capturedImages s') = length (capturedImages s)
    /\ id <$> capturedImages s' = id <$> capturedImages s
    /\ url <$> capturedImages s' = url <$> capturedImages s
    /\ stream s' = stream s /\ isAnalyzing s' = isAnalyzing s /\ error s' = error s
    /\ viewMode s' = viewMode s /\ cropTarget s' = cropTarget s in
  keeps (toggleImageSelection id' s) /\ keeps (selectAll select s).
Proof.
  intros keeps. split; unfold keeps.
  - rewrite toggleImageSelection_images, length_fmap, <- !list_fmap_compose.
    split; [done|]. split; [|split; [|done]].
    + apply list_fmap_ext. intros _ img _. apply flipAt_id.
    + apply list_fmap_ext. intros _ img _. apply flipAt_url.
  - unfold selectAll. rewrite capturedImages_setCapturedImages.
    rewrite length_fmap, <- !list_fmap_compose. done.
Qed.

(** ** The crop transform *)

(** C2. The rectangle that [handleConfirm] computes is the display
    rectangle of the request (the selection box as drawn: [x] and [y] the
    minima of the two ends, [w] and [h] the absolute differences),
    multiplied on both axes and both dimensions by the one factor
    [naturalWidth / width]; and when the handler draws, it draws from
    exactly that rectangle into a canvas of its size. *)
Theorem nativeRect_is_displayRect_scaled
    (m : CropModal.Modal) (el : CropModal.HTMLImageElement) :
  CropTransform.styleRect (CropModal.selectionStyle m)
  = CropTransform.spec_displayRect (CropModal.startPos m) (CropModal.currentPos m)
  /\ CropTransform.nativeRect el m
     = CropTransform.spec_scaled
         (CropTransform.spec_scale (CropModal.naturalWidth el) (CropModal.width el))
         (CropTransform.spec_displayRect (CropModal.startPos m) (CropModal.currentPos m))
  /\ forall getContext toDataURL call id' newUrl,
       CropModal.imgRef m = Some el ->
       CropModal.handleConfirm getContext toDataURL m
       = CropModal.OnConfirm call id' newUrl ->
       CropTransform.sourceRect call = CropTransform.nativeRect el m
       /\ CropModal.dx call = 0%float /\ CropModal.dy call = 0%float
       /\ CropModal.dWidth call = CropTransform.w (CropTransform.nativeRect el m)
       /\ CropModal.dHeight call = CropTransform.h (CropTransform.nativeRect el m).
Proof.
  split; [reflexivity|]. split; [reflexivity|].
  intros getContext toDataURL call id' newUrl Hel.
  unfold CropModal.handleConfirm. rewrite Hel.
  destruct (ltb (CropModal.crop_w el m) 50 || ltb (CropModal.crop_h el m) 50)%bool;
    [discriminate|].
  destruct getContext; [|discriminate].
  intros [= <- _ _]. repeat split.
Qed.

Lemma nativeRect_is_displayRect_scaled_witness :
  let img := mkCapturedImage "17.1" "data:a" true in
  let el := CropModal.mkImg 2000 500 in
  let m := CropModal.mkModal img (CropModal.mkPos 110 20) (CropModal.mkPos 10 220)
                             false (Some el) None in
  let toDataURL := fun (src : string) (_ : CropModal.DrawImage) => "data:crop" in
  CropModal.handleConfirm true toDataURL m
  = CropModal.OnConfirm (CropModal.mkDrawImage 40 80 400 800 0 0 400 800) "17.1" "data:crop"
  /\ CropTransform.sourceRect (CropModal.mkDrawImage 40 80 400 800 0 0 400 800)
     = CropTransform.nativeRect el m
  /\ CropTransform.nativeRect el m = CropTransform.mkRect 40 80 400 800.
Proof.
  intros img el m toDataURL.
  assert (Hrun : CropModal.handleConfirm true toDataURL m
                 = CropModal.OnConfirm (CropModal.mkDrawImage 40 80 400 800 0 0 400 800)
                                       "17.1" "data:crop") by reflexivity.
  destruct (nativeRect_is_displayRect_scaled m el) as (_ & _ & Hdraw).
  destruct (Hdraw true toDataURL _ _ _ eq_refl Hrun) as (Hsrc & _).
  split; [exact Hrun|]. split; [exact Hsrc|]. reflexivity.
Defined.

(** C3. When the native width or the native height that [handleConfirm]
    computes is below 50, the handler alerts that the selection is too
    small and returns: [onConfirm] is not called, so the state of
    [CameraView], the store in it, is as it was. *)
Theorem handleConfirm_selection_too_small
    (getContext : bool) (toDataURL : string -> CropModal.DrawImage -> string)
    (m : CropModal.Modal) (el : CropModal.HTMLImageElement) (s : State) :
  CropModal.imgRef m = Some el ->
  ltb (CropTransform.w (CropTransform.nativeRect el m)) 50 = true
  \/ ltb (CropTransform.h (CropTransform.nativeRect el m)) 50 = true ->
  CropModal.handleConfirm getContext toDataURL m
  = CropModal.Alert "Selection too small. Please select a larger area."
  /\ applyCrop getContext toDataURL m s
     = (s, ["Selection too small. Please select a larger area."]).
Proof.
  intros Hel Hsmall.
  assert (Hrun : CropModal.handleConfirm getContext toDataURL m
                 = CropModal.Alert "Selection too small. Please select a larger area.").
  { unfold CropModal.handleConfirm. rewrite Hel.
    simpl in Hsmall. destruct Hsmall as [-> | ->]; [done|].
    by rewrite orb_true_r. }
  split; [exact Hrun|]. unfold applyCrop. by rewrite Hrun.
Qed.

Lemma handleConfirm_selection_too_small_witness :
  let a := mkCapturedImage "17.1" "data:a" true in
  let el := CropModal.mkImg 2000 500 in
  let m := CropModal.mkModal a (CropModal.mkPos 10 20) (CropModal.mkPos 22 220)
                             false (Some el) None in
  let toDataURL := fun (src : string) (_ : CropModal.DrawImage) => "data:crop" in
  let s := setCropTarget (Some a) (setCapturedImages (fun _ => [a]) initialState) in
  CropTransform.w (CropTransform.nativeRect el m) = 48%float
  /\ applyCrop true toDataURL m s
     = (s, ["Selection too small. Please select a larger area."]).
Proof.
  intros a el m toDataURL s. split; [reflexivity|].
  apply (handleConfirm_selection_too_small true toDataURL m el s eq_refl).
  left. reflexivity.
Defined.

(** ** Batch analysis *)

Section PromiseAll.
Context {A : Type}.
Implicit Types (p : Promise A) (ps : list (Promise A)).

(** When every input is fulfilled, so is [Promise.all], with the values
    in input order, at the time the last one settles. *)
Lemma Promise_all_fulfilled ps :
  (forall p, p ∈ ps -> ~ isRejected p) ->
  exists vs,
    settlement (Promise_all ps) = Fulfilled vs
    /\ Fulfilled <$> vs = settlement <$> ps
    /\ settledAt (Promise_all ps) = foldr Nat.max 0 (settledAt <$> ps).
Proof.
  induction ps as [|p ps IH]; intros Hall.
  - by exists [].
  - destruct IH as (vs & Hvs & Heq & Ht).
    { intros q Hq. apply Hall. by right. }
    assert (Hp : ~ isRejected p) by (apply Hall; left).
    unfold isRejected in Hp. cbn [Promise_all]. rewrite Hvs.
    destruct (settlement p) as [v|r] eqn:Ep; [|done].
    exists (v :: vs). cbn [settlement settledAt].
    rewrite !fmap_cons, Heq, Ep, Ht. done.
Qed.

(** When some input is rejected, [Promise.all] is rejected at the time
    of the earliest rejection, with its reason. *)
Lemma Promise_all_rejected ps :
  (exists p, p ∈ ps /\ isRejected p) ->
  exists p r,
    p ∈ ps /\ settlement p = Rejected r
    /\ settlement (Promise_all ps) = Rejected r
    /\ settledAt (Promise_all ps) = settledAt p
    /\ forall q, q ∈ ps -> isRejected q -> settledAt p <= settledAt q.
Proof.
  induction ps as [|p ps IH]; intros (q & Hq & Hrej).
  - by apply elem_of_nil in Hq.
  - cbn [Promise_all].
    destruct (decide (Exists isRejected ps)) as [Hex|Hno].
    + (* the tail has a rejection: compare it with the head *)
      apply Exists_exists in Hex.
      destruct (IH Hex) as (p0 & r0 & Hp0 & Hs0 & Hr0 & Ht0 & Hmin).
      rewrite Hr0. destruct (settlement p) as [v|r] eqn:Ep.
      * exists p0, r0. cbn [settlement settledAt].
        split; [by right|]. do 3 (split; [done|]).
        intros q' [->|Hq']%elem_of_cons Hq'rej; [|by apply Hmin].
        unfold isRejected in Hq'rej. by rewrite Ep in Hq'rej.
      * destruct (settledAt p <=? settledAt (Promise_all ps))%nat eqn:Ele.
        -- apply Nat.leb_le in Ele.
           exists p, r. cbn [settlement settledAt].
           split; [by left|]. do 3 (split; [done|]).
           intros q' [->|Hq']%elem_of_cons Hq'rej; [done|].
           etrans; [exact Ele|]. rewrite Ht0. by apply Hmin.
        -- apply Nat.leb_gt in Ele.
           exists p0, r0. cbn [settlement settledAt].
           split; [by right|]. do 3 (split; [done|]).
           intros q' [->|Hq']%elem_of_cons Hq'rej; [lia|by apply Hmin].
    + (* no rejection in the tail: the head is the rejected one *)
      apply not_Exists_Forall in Hno; [|apply _].
      rewrite Forall_forall in Hno.
      destruct (Promise_all_fulfilled ps Hno) as (vs & Hvs & _).
      apply elem_of_cons in Hq as [->|Hq]; [|by destruct (Hno q Hq)].
      unfold isRejected in Hrej. rewrite Hvs.
      destruct (settlement p) as [v|r] eqn:Ep; [done|].
      exists p, r. cbn [settlement settledAt].
      split; [by left|]. do 3 (split; [done|]).
      intros q' [->|Hq']%elem_of_cons Hq'rej; [done|by destruct (Hno q' Hq')].
Qed.

End PromiseAll.

Section BatchFacts.
Context {AnalysisResult : Type}.
Variable analyze : string -> Promise AnalysisResult.

Lemma handleBatchAnalyze_nonempty analyzeAll s :
  imagesToProcess analyzeAll s <> [] ->
  handleBatchAnalyze analyze analyzeAll s
  = let images := imagesToProcess analyzeAll s in
    let all := Promise_all ((fun img => analyze (url img)) <$> images) in
    match settlement all with
    | Fulfilled results =>
        mkBatchRun (setIsAnalyzing true s) (url <$> images) (Some results) false
                   (Some (settledAt all))
    | Rejected _ =>
        mkBatchRun
          (setIsAnalyzing false
             (setError (Some "Connection to Raspberry Pi failed during batch analysis.")
                       (setIsAnalyzing true s)))
          (url <$> images) None true (Some (settledAt all))
    end.
Proof.
  intros Hne. unfold handleBatchAnalyze.
  rewrite decide_False; [done|]. by rewrite length_zero_iff_nil.
Qed.

Lemma zip_with_fulfilled (images : list CapturedImage) : forall vs,
  Fulfilled <$> vs = settlement <$> ((fun img => analyze (url img)) <$> images) ->
  zip_with (fun img res => (id img, Fulfilled res)) images vs
  = (fun img => (id img, settlement (analyze (url img)))) <$> images.
Proof.
  induction images as [|img images IH]; intros [|v vs]; try done.
  intros Heq. cbn in Heq. injection Heq as Hv Hvs.
  cbn. rewrite <- Hv. f_equal. by apply IH.
Qed.

(** When every call is fulfilled the results go to [onAnalysisComplete],
    one per image and in dispatch order: the report is the specified
    one. *)
Lemma handleBatchAnalyze_all_fulfilled analyzeAll s :
  imagesToProcess analyzeAll s <> [] ->
  (forall img, img ∈ imagesToProcess analyzeAll s -> ~ isRejected (analyze (url img))) ->
  let images := imagesToProcess analyzeAll s in
  let r := handleBatchAnalyze analyze analyzeAll s in
  analyzed r = url <$> images
  /\ caught r = false
  /\ error (after r) = error s
  /\ BatchDispatcher.reportOf images r = BatchDispatcher.spec_dispatch analyze images.
Proof.
  intros Hne Hall images r. unfold r. rewrite handleBatchAnalyze_nonempty by done.
  fold images.
  destruct (Promise_all_fulfilled ((fun img => analyze (url img)) <$> images))
    as (vs & Hvs & Heq & _).
  { intros p (img & -> & Himg)%list_elem_of_fmap. by apply Hall. }
  cbn zeta. rewrite Hvs. cbn [analyzed caught after onAnalysisComplete].
  repeat split.
  unfold BatchDispatcher.reportOf, BatchDispatcher.spec_dispatch.
  cbn [onAnalysisComplete caught]. f_equal. by apply zip_with_fulfilled.
Qed.

End BatchFacts.

(** C1 (as the code has it). When the call of [analyzeImageWithPi] for
    some dispatched image is rejected, [handleBatchAnalyze] has called it
    once for every image, in order, and resumes when the earliest
    rejection settles; it does not call [onAnalysisComplete], so no
    image's result is reported, and it records the one batch error
    message: the report has no outcomes and [batchFailed = true]. The
    store is as it was. *)
Theorem handleBatchAnalyze_rejection_fails_batch {AnalysisResult : Type}
    (analyze : string -> Promise AnalysisResult) (analyzeAll : bool) (s : State) :
  (exists img, img ∈ imagesToProcess analyzeAll s /\ isRejected (analyze (url img))) ->
  let images := imagesToProcess analyzeAll s in
  let r := handleBatchAnalyze analyze analyzeAll s in
  analyzed r = url <$> images
  /\ onAnalysisComplete r = None
  /\ caught r = true
  /\ error (after r) = Some "Connection to Raspberry Pi failed during batch analysis."
  /\ isAnalyzing (after r) = false
  /\ capturedImages (after r) = capturedImages s
  /\ BatchDispatcher.reportOf images r = BatchDispatcher.mkBatchReport [] true
  /\ exists img,
       img ∈ images /\ isRejected (analyze (url img))
       /\ resumedAt r = Some (settledAt (analyze (url img)))
       /\ forall img', img' ∈ images -> isRejected (analyze (url img')) ->
                       settledAt (analyze (url img)) <= settledAt (analyze (url img')).
Proof.
  intros (img & Himg & Hrej) images r.
  assert (Hne : imagesToProcess analyzeAll s <> []).
  { intros Hnil. rewrite Hnil in Himg. by apply elem_of_nil in Himg. }
  unfold r. rewrite handleBatchAnalyze_nonempty by done. fold images.
  destruct (Promise_all_rejected ((fun img => analyze (url img)) <$> images))
    as (p & reason & Hp & Hsp & Hall & Ht & Hmin).
  { exists (analyze (url img)). split; [|done].
    apply list_elem_of_fmap. by exists img. }
  apply list_elem_of_fmap in Hp as (img0 & -> & Himg0).
  cbn zeta. rewrite Hall.
  cbn [analyzed onAnalysisComplete caught after resumedAt].
  do 7 (split; [done|]).
  exists img0. split; [done|]. split; [unfold isRejected; by rewrite Hsp|].
  split; [by rewrite Ht|].
  intros img' Himg' Hrej'. apply Hmin; [|done].
  apply list_elem_of_fmap. by exists img'.
Qed.

Lemma handleBatchAnalyze_rejection_fails_batch_witness :
  let a := mkCapturedImage "17.1" "data:a" true in
  let b := mkCapturedImage "17.2" "data:b" true in
  let s := setCapturedImages (fun _ => [a; b]) initialState in
  let analyze := fun u : string =>
    if decide (u = "data:b") then mkPromise 1 (Rejected "timeout")
    else mkPromise 5 (Fulfilled ("report for " +:+ u)) in
  isRejected (analyze (url b))
  /\ analyzed (handleBatchAnalyze analyze true s) = ["data:a"; "data:b"]
  /\ onAnalysisComplete (handleBatchAnalyze analyze true s) = None
  /\ error (after (handleBatchAnalyze analyze true s))
     = Some "Connection to Raspberry Pi failed during batch analysis.".
Proof.
  intros a b s analyze.
  assert (Hrej : isRejected (analyze (url b))) by exact I.
  assert (Hin : b ∈ imagesToProcess true s) by (right; left).
  destruct (handleBatchAnalyze_rejection_fails_batch analyze true s
              (ex_intro _ b (conj Hin Hrej)))
    as (Hcalls & Hnone & _ & Herr & _).
  split; [exact Hrej|]. split; [exact Hcalls|]. split; [exact Hnone | exact Herr].
Defined.

(** C1, as stated, fails: with two images, the first analysed with
    success at time 5 and the second rejected at time 1, the specified
    report has one outcome per image and [batchFailed = false]; the
    handler resumes at time 1, reports no outcome at all and raises the
    batch error. *)
Lemma handleBatchAnalyze_mixed_batch_not_reported :
  let a := mkCapturedImage "17.1" "data:a" true in
  let b := mkCapturedImage "17.2" "data:b" true in
  let s := setCapturedImages (fun _ => [a; b]) initialState in
  let analyze := fun u : string =>
    if decide (u = "data:b") then mkPromise 1 (Rejected "timeout")
    else mkPromise 5 (Fulfilled ("report for " +:+ u)) in
  let r := handleBatchAnalyze analyze true s in
  BatchDispatcher.spec_dispatch analyze [a; b]
  = BatchDispatcher.mkBatchReport
      [("17.1", Fulfilled "report for data:a"); ("17.2", Rejected "timeout")] false
  /\ BatchDispatcher.reportOf [a; b] r = BatchDispatcher.mkBatchReport [] true
  /\ BatchDispatcher.reportOf [a; b] r <> BatchDispatcher.spec_dispatch analyze [a; b]
  /\ onAnalysisComplete r = None
  /\ resumedAt r = Some 1
  /\ error (after r) = Some "Connection to Raspberry Pi failed during batch analysis.".
Proof.
  intros a b s analyze r.
  split; [reflexivity|]. split; [reflexivity|]. split; [discriminate|].
  split; [reflexivity|]. split; reflexivity.
Qed.

(** C4. When there is no image to process, [handleBatchAnalyze] returns
    at once: [analyzeImageWithPi] is not called, nothing is awaited, no
    cell of the state changes, and the report is empty. *)
Theorem handleBatchAnalyze_empty {AnalysisResult : Type}
    (analyze : string -> Promise AnalysisResult) (analyzeAll : bool) (s : State) :
  imagesToProcess analyzeAll s = [] ->
  let r := handleBatchAnalyze analyze analyzeAll s in
  analyzed r = []
  /\ resumedAt r = None
  /\ after r = s
  /\ onAnalysisComplete r = None
  /\ BatchDispatcher.reportOf (imagesToProcess analyzeAll s) r
     = BatchDispatcher.mkBatchReport [] false
  /\ BatchDispatcher.reportOf (imagesToProcess analyzeAll s) r
     = BatchDispatcher.spec_dispatch analyze (imagesToProcess analyzeAll s).
Proof.
  intros Hnil r. unfold r, handleBatchAnalyze. rewrite Hnil.
  rewrite decide_True by done. repeat split.
Qed.

Lemma handleBatchAnalyze_empty_witness :
  let a := mkCapturedImage "17.1" "data:a" false in
  let s := setCapturedImages (fun _ => [a]) initialState in
  let analyze := fun u : string => mkPromise 1 (Rejected (A := string) "timeout") in
  imagesToProcess false s = []
  /\ analyzed (handleBatchAnalyze analyze false s) = []
  /\ after (handleBatchAnalyze analyze false s) = s
  /\ BatchDispatcher.reportOf [] (handleBatchAnalyze analyze false s)
     = BatchDispatcher.mkBatchReport [] false.
Proof.
  intros a s analyze.
  destruct (handleBatchAnalyze_empty analyze false s eq_refl)
    as (Hcalls & _ & Hafter & _ & Hreport & _).
  split; [reflexivity|]. split; [exact Hcalls|]. split; [exact Hafter | exact Hreport].
Defined.

(** ** The camera stream *)

Lemma stop_tracks (tracks : list nat) : forall live : gset nat,
  foldl (fun live track => live ∖ {[ track ]}) live tracks = live ∖ list_to_set tracks.
Proof.
  induction tracks as [|t tracks IH]; intros live; cbn [foldl list_to_set].
  - by rewrite difference_empty_L.
  - by rewrite IH, difference_difference_l_L.
Qed.

Lemma stopCamera_releases (mediaStream : MediaStream) (s : State) (live : gset nat) :
  stopCamera (Some mediaStream) s live
  = (setStream None s, live ∖ list_to_set (getTracks mediaStream)).
Proof. unfold stopCamera. by rewrite stop_tracks. Qed.

(** Leaving the camera view for the review view stops the stream: the
    effect that runs then sees the stream in its render. *)
Lemma review_releases_stream (mediaStream : MediaStream) :
  let p := run [Mount; GetUserMediaResolved mediaStream; SetViewMode review] emptyPage in
  live p = ∅ /\ (stream <$> (current <$> component p)) = Some None.
Proof.
  cbn. rewrite stop_tracks, (left_id_L ∅ (∪)). split; [apply difference_diag_L|done].
Qed.

(** X14. The explicit stop in general: whatever the cleanup of the previous
    run holds, switching a component that shows the camera to the review
    view stops every track of the stream in its [stream] cell. *)
Lemma setViewMode_review_releases (p : Page) (i : Instance) (mediaStream : MediaStream) :
  component p = Some i ->
  viewMode (current i) = camera ->
  stream (current i) = Some mediaStream ->
  let p' := step (SetViewMode review) p in
  (forall track, track ∈ getTracks mediaStream -> track ∉ live p')
  /\ (stream <$> (current <$> component p')) = Some None.
Proof.
  intros Hi Hmode Hstream. unfold step. rewrite Hi, Hmode.
  unfold runEffect. cbn [setViewMode viewMode stream].
  destruct (effectStream i) as [old|]; rewrite Hstream;
    cbn [stopCamera setStream stream]; rewrite !stop_tracks; cbn;
    (split; [|done]); intros track Htrack; rewrite elem_of_difference;
    intros [_ Hstopped]; apply Hstopped; by apply elem_of_list_to_set.
Qed.

(** C9, where the code departs from it. The component is mounted, the
    camera is acquired, and the owner unmounts the component while it
    still shows the camera ([onBack]). The cleanup of the effect calls
    the [stopCamera] of the first render, whose [stream] is [null]: no
    track is stopped, and every track of the stream stays live after the
    component is gone. *)
Theorem unmount_in_camera_mode_keeps_stream_live (mediaStream : MediaStream) :
  let p := run [Mount; GetUserMediaResolved mediaStream; Unmount] emptyPage in
  component p = None
  /\ live p = list_to_set (getTracks mediaStream)
  /\ forall track, track ∈ getTracks mediaStream -> track ∈ live p.
Proof.
  cbn. rewrite (left_id_L ∅ (∪)). split; [done|]. split; [done|].
  intros track Htrack. by apply elem_of_list_to_set.
Qed.

Lemma unmount_in_camera_mode_keeps_stream_live_witness :
  let mediaStream := mkMediaStream [7] in
  7 ∈ live (run [Mount; GetUserMediaResolved mediaStream; Unmount] emptyPage).
Proof.
  intros mediaStream.
  destruct (unmount_in_camera_mode_keeps_stream_live mediaStream) as (_ & _ & Hlive).
  apply Hlive. left.
Defined.

(** * Further properties of the components *)

(** ** JavaScript numbers: the order *)

Lemma SFcompare_antisym (a b : spec_float) :
  SFcompare b a = CompOpp <$> SFcompare a b.
Proof.
  destruct a as [sa|sa| |sa ma ea], b as [sb|sb| |sb mb eb];
    try destruct sa; try destruct sb; try reflexivity; cbn.
  all: rewrite (Z.compare_antisym ea eb); destruct (ea ?= eb)%Z; cbn; try reflexivity.
  all: pose proof (Pos.compare_cont_antisym ma mb Eq) as Hm; cbn in Hm; rewrite <- Hm.
  all: by rewrite ?CompOpp_involutive.
Qed.

Lemma SFcompare_refl (a : spec_float) : a <> S754_nan -> SFcompare a a = Some Eq.
Proof.
  destruct a as [sa|sa| |sa ma ea]; try destruct sa; try done; intros _; cbn.
  all: rewrite Z.compare_refl; cbn; by rewrite Pos.compare_cont_refl.
Qed.

Lemma is_nan_false (a : float) : is_nan a = false <-> Prim2SF a <> S754_nan.
Proof.
  unfold is_nan. rewrite FloatAxioms.eqb_spec. unfold SFeqb. split.
  - intros H E. rewrite E in H. done.
  - intros H. by rewrite SFcompare_refl.
Qed.

Lemma ltb_leb (a b : float) : ltb a b = true -> PrimFloat.leb a b = true.
Proof.
  rewrite FloatAxioms.ltb_spec, FloatAxioms.leb_spec. unfold SFltb, SFleb.
  by destruct (SFcompare _ _) as [[]|].
Qed.

Lemma leb_refl (a : float) : is_nan a = false -> PrimFloat.leb a a = true.
Proof.
  rewrite is_nan_false, FloatAxioms.leb_spec. unfold SFleb. intros H.
  by rewrite SFcompare_refl.
Qed.

Lemma leb_not_nan (a b : float) :
  PrimFloat.leb a b = true -> is_nan a = false /\ is_nan b = false.
Proof.
  rewrite FloatAxioms.leb_spec, !is_nan_false. unfold SFleb.
  destruct (Prim2SF a), (Prim2SF b); done.
Qed.

(** On numbers the order is total: what is not below is at least. *)
Lemma not_ltb_leb (a b : float) :
  is_nan a = false -> is_nan b = false -> ltb a b = false -> PrimFloat.leb b a = true.
Proof.
  rewrite !is_nan_false, FloatAxioms.ltb_spec, FloatAxioms.leb_spec.
  unfold SFltb, SFleb. intros Ha Hb.
  rewrite (SFcompare_antisym (Prim2SF a) (Prim2SF b)).
  destruct (SFcompare (Prim2SF a) (Prim2SF b)) as [[]|] eqn:E; try done.
  destruct (Prim2SF a), (Prim2SF b); done.
Qed.

(** [Math.min] of two numbers is one of them, and at most the second. *)
Lemma Math_min_le (a b : float) :
  is_nan a = false -> is_nan b = false ->
  is_nan (Math.min a b) = false /\ PrimFloat.leb (Math.min a b) b = true.
Proof.
  intros Ha Hb. unfold Math.min. rewrite Ha, Hb. cbn [orb].
  destruct (ltb a b) eqn:Hab; [by auto using ltb_leb|].
  destruct (ltb b a) eqn:Hba; [by auto using leb_refl|].
  destruct (get_sign a); [|by auto using leb_refl].
  split; [done|]. by apply not_ltb_leb.
Qed.

(** [Math.max(0, b)] of a number at most [c], for [c] not negative, lies
    between [0] and [c]. *)
Lemma Math_max_zero_between (b c : float) :
  is_nan b = false -> PrimFloat.leb b c = true -> PrimFloat.leb 0 c = true ->
  PrimFloat.leb 0 (Math.max 0 b) = true /\ PrimFloat.leb (Math.max 0 b) c = true.
Proof.
  intros Hb Hbc Hc. unfold Math.max. rewrite Hb.
  change (is_nan 0) with false. cbn [orb].
  destruct (ltb 0 b) eqn:H0b; [by auto using ltb_leb|].
  destruct (ltb b 0) eqn:Hb0; [done|].
  change (get_sign 0) with false. cbv iota. done.
Qed.

(** ** The crop selection *)

(** X1. While the button is down, [handleMouseMove] keeps the moving end
    of the selection inside the container: for a container of
    non-negative size and a pointer offset that is a number,
    [0 <= x <= rect.width] and [0 <= y <= rect.height]; the pressed end
    is not moved. *)
Theorem handleMouseMove_clamps_to_container
    (clientX clientY : float) (m : CropModal.Modal) (rect : CropModal.DOMRect) :
  CropModal.isDrawing m = true ->
  CropModal.containerRef m = Some rect ->
  PrimFloat.leb 0 (CropModal.rect_width rect) = true ->
  PrimFloat.leb 0 (CropModal.rect_height rect) = true ->
  is_nan (sub clientX (CropModal.rect_left rect)) = false ->
  is_nan (sub clientY (CropModal.rect_top rect)) = false ->
  let m' := CropModal.handleMouseMove clientX clientY m in
  CropModal.startPos m' = CropModal.startPos m
  /\ PrimFloat.leb 0 (CropModal.x (CropModal.currentPos m')) = true
  /\ PrimFloat.leb (CropModal.x (CropModal.currentPos m')) (CropModal.rect_width rect) = true
  /\ PrimFloat.leb 0 (CropModal.y (CropModal.currentPos m')) = true
  /\ PrimFloat.leb (CropModal.y (CropModal.currentPos m')) (CropModal.rect_height rect) = true.
Proof.
  intros Hdraw Hrect Hw Hh Hx Hy m'. unfold m', CropModal.handleMouseMove.
  rewrite Hdraw, Hrect. cbn [negb CropModal.setCurrentPos CropModal.startPos
                              CropModal.currentPos CropModal.x CropModal.y].
  destruct (leb_not_nan _ _ Hw) as [_ Hwn]. destruct (leb_not_nan _ _ Hh) as [_ Hhn].
  destruct (Math_min_le _ _ Hx Hwn) as [Hmx Hmxw].
  destruct (Math_min_le _ _ Hy Hhn) as [Hmy Hmyh].
  destruct (Math_max_zero_between _ _ Hmx Hmxw Hw) as [? ?].
  destruct (Math_max_zero_between _ _ Hmy Hmyh Hh) as [? ?].
  done.
Qed.

Lemma handleMouseMove_clamps_to_container_witness :
  let a := mkCapturedImage "17.1" "data:a" true in
  let rect := CropModal.mkDOMRect 100 50 400 300 in
  let m := CropModal.mkModal a (CropModal.mkPos 10 20) (CropModal.mkPos 10 20) true
                             None (Some rect) in
  CropModal.currentPos (CropModal.handleMouseMove 900 20 m) = CropModal.mkPos 400 0
  /\ PrimFloat.leb (CropModal.x (CropModal.currentPos (CropModal.handleMouseMove 900 20 m)))
                   400 = true.
Proof.
  intros a rect m. split; [reflexivity|].
  destruct (handleMouseMove_clamps_to_container 900 20 m rect
              eq_refl eq_refl eq_refl eq_refl eq_refl eq_refl) as (_ & _ & Hx & _).
  exact Hx.
Defined.

Lemma handleMouseMove_keeps (clientX clientY : float) (m : CropModal.Modal) :
  let m' := CropModal.handleMouseMove clientX clientY m in
  CropModal.startPos m' = CropModal.startPos m
  /\ CropModal.isDrawing m' = CropModal.isDrawing m
  /\ CropModal.containerRef m' = CropModal.containerRef m
  /\ CropModal.imgRef m' = CropModal.imgRef m
  /\ CropModal.image m' = CropModal.image m.
Proof.
  intros m'. unfold m', CropModal.handleMouseMove.
  destruct (CropModal.isDrawing m) eqn:Hd; cbn [negb]; [|by rewrite Hd].
  destruct (CropModal.containerRef m) eqn:Hc; cbn; by rewrite ?Hd, ?Hc.
Qed.

Lemma handleMouseMove_released (moves : list (float * float)) : forall m,
  CropModal.isDrawing m = false ->
  foldl (fun m p => CropModal.handleMouseMove p.1 p.2 m) m moves = m.
Proof.
  induction moves as [|p moves IH]; intros m Hup; [done|].
  cbn [foldl]. unfold CropModal.handleMouseMove at 2. rewrite Hup. cbn [negb].
  by apply IH.
Qed.

Lemma handleMouseMove_drag (moves : list (float * float)) : forall m,
  let m' := foldl (fun m p => CropModal.handleMouseMove p.1 p.2 m) m moves in
  CropModal.startPos m' = CropModal.startPos m
  /\ CropModal.imgRef m' = CropModal.imgRef m
  /\ CropModal.image m' = CropModal.image m.
Proof.
  induction moves as [|p moves IH]; intros m; [done|].
  cbn [foldl]. destruct (IH (CropModal.handleMouseMove p.1 p.2 m)) as (-> & -> & ->).
  by destruct (handleMouseMove_keeps p.1 p.2 m) as (-> & _ & _ & -> & ->).
Qed.

(** X2. A drag gesture: a press at a point, moves with the button down, a
    release, and moves after it. The pressed end of the selection is the
    press point relative to the container, whatever the moves; the moves
    after the release change nothing; the image of the modal is never
    touched. *)
Theorem drag_gesture_fixes_start_and_freezes_after_release
    (m : CropModal.Modal) (rect : CropModal.DOMRect) (clientX clientY : float)
    (dragged hovered : list (float * float)) :
  CropModal.containerRef m = Some rect ->
  let move := fun m (p : float * float) => CropModal.handleMouseMove p.1 p.2 m in
  let released :=
    CropModal.handleMouseUp (foldl move (CropModal.handleMouseDown clientX clientY m) dragged) in
  foldl move released hovered = released
  /\ CropModal.startPos released
     = CropModal.mkPos (sub clientX (CropModal.rect_left rect))
                       (sub clientY (CropModal.rect_top rect))
  /\ CropModal.isDrawing released = false
  /\ CropModal.image released = CropModal.image m
  /\ CropModal.imgRef released = CropModal.imgRef m.
Proof.
  intros Hrect move released.
  split; [by apply handleMouseMove_released|].
  unfold released.
  destruct (handleMouseMove_drag dragged (CropModal.handleMouseDown clientX clientY m))
    as (Hs & Hi & Hg).
  cbn [CropModal.handleMouseUp CropModal.setIsDrawing CropModal.startPos
       CropModal.isDrawing CropModal.image CropModal.imgRef].
  fold move in Hs, Hi, Hg. rewrite Hs, Hi, Hg.
  unfold CropModal.handleMouseDown. rewrite Hrect. done.
Qed.

Lemma drag_gesture_fixes_start_and_freezes_after_release_witness :
  let a := mkCapturedImage "17.1" "data:a" true in
  let rect := CropModal.mkDOMRect 100 50 400 300 in
  let m := CropModal.mkModal a (CropModal.mkPos 0 0) (CropModal.mkPos 0 0) false
                             (Some (CropModal.mkImg 2000 400)) (Some rect) in
  let move := fun m (p : float * float) => CropModal.handleMouseMove p.1 p.2 m in
  let released :=
    CropModal.handleMouseUp
      (foldl move (CropModal.handleMouseDown 150 80 m) [(200, 100); (350, 330)]%float) in
  foldl move released [(120, 60)]%float = released
  /\ CropModal.startPos released = CropModal.mkPos 50 30
  /\ CropModal.currentPos released = CropModal.mkPos 250 280.
Proof.
  intros a rect m move released.
  destruct (drag_gesture_fixes_start_and_freezes_after_release
              m rect 150 80 [(200, 100); (350, 330)]%float [(120, 60)]%float eq_refl)
    as (Hfrozen & Hstart & _).
  split; [exact Hfrozen|]. split; [exact Hstart | reflexivity].
Defined.

(** X3. When [handleConfirm] draws, the width and the height of the
    native rectangle are each at least 50, or not a number: the minimum
    size test [w < 50 || h < 50] lets NaN through. The crop is reported
    for the id of the image of the modal, with the rendering of that
    image. *)
Theorem handleConfirm_draws_at_least_50_or_NaN
    (getContext : bool) (toDataURL : string -> CropModal.DrawImage -> string)
    (m : CropModal.Modal) (call : CropModal.DrawImage) (id' newUrl : string) :
  CropModal.handleConfirm getContext toDataURL m = CropModal.OnConfirm call id' newUrl ->
  (PrimFloat.leb 50 (CropModal.sWidth call) = true \/ is_nan (CropModal.sWidth call) = true)
  /\ (PrimFloat.leb 50 (CropModal.sHeight call) = true
      \/ is_nan (CropModal.sHeight call) = true)
  /\ id' = id (CropModal.image m)
  /\ newUrl = toDataURL (url (CropModal.image m)) call
  /\ getContext = true.
Proof.
  unfold CropModal.handleConfirm.
  destruct (CropModal.imgRef m) as [el|]; [|discriminate].
  destruct (ltb (CropModal.crop_w el m) 50) eqn:Hw; [discriminate|].
  destruct (ltb (CropModal.crop_h el m) 50) eqn:Hh; [discriminate|].
  cbn [orb]. destruct getContext; [|discriminate].
  intros [= <- <- <-]. cbn [CropModal.sWidth CropModal.sHeight].
  assert (Hge : forall v, ltb v 50 = false ->
                          PrimFloat.leb 50 v = true \/ is_nan v = true).
  { intros v Hv. destruct (is_nan v) eqn:Hn; [by right|left].
    by apply not_ltb_leb. }
  auto.
Qed.

Lemma handleConfirm_draws_at_least_50_or_NaN_witness :
  let a := mkCapturedImage "17.1" "data:a" true in
  let toDataURL := fun (src : string) (_ : CropModal.DrawImage) => "data:crop" in
  let m := CropModal.mkModal a (CropModal.mkPos 110 20) (CropModal.mkPos 10 220) false
                             (Some (CropModal.mkImg 2000 500)) None in
  let unlaid := CropModal.mkModal a (CropModal.mkPos 110 20) (CropModal.mkPos 10 220) false
                                  (Some (CropModal.mkImg 0 0)) None in
  PrimFloat.leb 50 400 = true
  /\ CropModal.handleConfirm true toDataURL unlaid
     = CropModal.OnConfirm (CropModal.mkDrawImage nan nan nan nan 0 0 nan nan)
                           "17.1" "data:crop".
Proof.
  intros a toDataURL m unlaid.
  destruct (handleConfirm_draws_at_least_50_or_NaN true toDataURL m
              (CropModal.mkDrawImage 40 80 400 800 0 0 400 800) "17.1" "data:crop" eq_refl)
    as ([Hw|Hw] & _); [|discriminate Hw].
  split; [exact Hw | reflexivity].
Defined.

(** X4. "Apply Crop" on a selection that passes the size test. With a 2D
    context, the buffer of every entry with the id of the cropped image
    becomes the rendering of the native rectangle, nothing else in the
    store changes, the modal is closed and no alert is shown. Without a
    context, nothing happens at all: no alert, and the modal stays as it
    is. *)
Theorem applyCrop_replaces_buffer_and_closes
    (toDataURL : string -> CropModal.DrawImage -> string)
    (m : CropModal.Modal) (el : CropModal.HTMLImageElement) (s : State) :
  CropModal.imgRef m = Some el ->
  ltb (CropModal.crop_w el m) 50 = false ->
  ltb (CropModal.crop_h el m) 50 = false ->
  let call := CropModal.mkDrawImage (CropModal.crop_x el m) (CropModal.crop_y el m)
                                    (CropModal.crop_w el m) (CropModal.crop_h el m)
                                    0 0 (CropModal.crop_w el m) (CropModal.crop_h el m) in
  let newUrl := toDataURL (url (CropModal.image m)) call in
  let s' := (applyCrop true toDataURL m s).1 in
  (applyCrop true toDataURL m s).2 = []
  /\ cropTarget s' = None
  /\ (forall i img,
        capturedImages s !! i = Some img ->
        capturedImages s' !! i
        = Some (if decide (id img = id (CropModal.image m))
                then mkCapturedImage (id img) newUrl (selected img)
                else img))
  /\ applyCrop false toDataURL m s = (s, []).
Proof.
  intros Hel Hw Hh call newUrl s'.
  assert (Hrun : forall getContext,
             CropModal.handleConfirm getContext toDataURL m
             = if getContext
               then CropModal.OnConfirm call (id (CropModal.image m)) newUrl
               else CropModal.NoContext).
  { intros getContext. unfold CropModal.handleConfirm. by rewrite Hel, Hw, Hh. }
  unfold s', applyCrop. rewrite !Hrun. cbn [fst snd].
  split; [done|]. split; [done|]. split; [|done].
  intros i img Hi. by rewrite handleCropConfirm_images, list_lookup_fmap, Hi.
Qed.

Lemma applyCrop_replaces_buffer_and_closes_witness :
  let a := mkCapturedImage "17.1" "data:a" true in
  let b := mkCapturedImage "17.2" "data:b" false in
  let s := openCropModal b (setCapturedImages (fun _ => [a; b]) initialState) in
  let toDataURL := fun (src : string) (_ : CropModal.DrawImage) => "crop of " +:+ src in
  let m := CropModal.mkModal b (CropModal.mkPos 110 20) (CropModal.mkPos 10 220) false
                             (Some (CropModal.mkImg 2000 500)) None in
  capturedImages (applyCrop true toDataURL m s).1 !! 1
  = Some (mkCapturedImage "17.2" "crop of data:b" false)
  /\ capturedImages (applyCrop true toDataURL m s).1 !! 0 = Some a
  /\ cropTarget (applyCrop true toDataURL m s).1 = None
  /\ applyCrop false toDataURL m s = (s, []).
Proof.
  intros a b s toDataURL m.
  destruct (applyCrop_replaces_buffer_and_closes toDataURL m (CropModal.mkImg 2000 500) s
              eq_refl eq_refl eq_refl) as (_ & Hclosed & Hat & Hnone).
  split; [exact (Hat 1 b eq_refl)|]. split; [exact (Hat 0 a eq_refl)|].
  split; [exact Hclosed | exact Hnone].
Defined.

(** ** The store: captures, deletions, selection *)

Lemma length_filter_split {A} (P : A -> Prop) `{!forall a, Decision (P a)} (l : list A) :
  length (filter P l) + length (filter (fun a => ~ P a) l) = length l.
Proof.
  induction l as [|a l IH]; [done|].
  rewrite !filter_cons. destruct (decide (P a)) as [Ha|Ha].
  - rewrite decide_False by tauto. cbn [length]. lia.
  - rewrite decide_True by done. cbn [length]. lia.
Qed.

Lemma filter_none {A} (P : A -> Prop) `{!forall a, Decision (P a)} (l : list A) :
  (forall a, a ∈ l -> ~ P a) -> filter P l = [].
Proof.
  induction l as [|a l IH]; intros HP; [done|].
  rewrite filter_cons_False by (apply HP; left).
  apply IH. intros b Hb. apply HP. by right.
Qed.

(** X5. [capturePhoto] adds exactly one entry, at the end and selected,
    when the video, the canvas and its context are there: the entries
    before it are untouched, the thumbnail of the "Review" button is the
    new photograph and the selected count grows by one. When one of the
    three is missing, nothing changes. *)
Theorem capturePhoto_appends_one_or_ignores (env : CaptureEnv) (s : State) :
  let s' := capturePhoto env s in
  (videoRef_current env = true -> canvasRef_current env = true -> getContext env = true ->
   capturedImages s'
   = capturedImages s ++ [mkCapturedImage (Date_now_Math_random env) (toDataURL env) true]
   /\ reviewThumbnail s' = Some (toDataURL env)
   /\ selectedCount s' = S (selectedCount s)
   /\ length (capturedImages s') = S (length (capturedImages s)))
  /\ (videoRef_current env = false \/ canvasRef_current env = false
      \/ getContext env = false -> s' = s).
Proof.
  intros s'. unfold s', capturePhoto. split.
  - intros -> -> ->. cbn [andb]. rewrite capturedImages_setCapturedImages.
    split; [done|]. unfold reviewThumbnail, selectedCount.
    rewrite capturedImages_setCapturedImages, last_snoc, filter_app, !length_app.
    cbn. rewrite decide_True by done. cbn [length]. split; [done|]. split; lia.
  - intros [-> | [-> | ->]]; [done| |].
    + by rewrite andb_false_r.
    + by destruct (_ && _)%bool.
Qed.

Lemma capturePhoto_appends_one_or_ignores_witness :
  let a := mkCapturedImage "17.1" "data:a" false in
  let s := setCapturedImages (fun _ => [a]) initialState in
  capturedImages (capturePhoto (mkCaptureEnv true true true "data:b" "17.2") s)
  = [a; mkCapturedImage "17.2" "data:b" true]
  /\ reviewThumbnail (capturePhoto (mkCaptureEnv true true true "data:b" "17.2") s)
     = Some "data:b"
  /\ capturePhoto (mkCaptureEnv true true false "data:b" "17.2") s = s.
Proof.
  intros a s.
  destruct (capturePhoto_appends_one_or_ignores (mkCaptureEnv true true true "data:b" "17.2") s)
    as (Hok & _).
  destruct (capturePhoto_appends_one_or_ignores (mkCaptureEnv true true false "data:b" "17.2") s)
    as (_ & Hmissing).
  destruct (Hok eq_refl eq_refl eq_refl) as (Himgs & Hthumb & _).
  split; [exact Himgs|]. split; [exact Hthumb|].
  apply Hmissing. right; right; reflexivity.
Defined.

(** X6. [deleteImage(id)]: when the user declines, or when no entry has
    the id, nothing changes. When the user confirms, no entry with the id
    is left, the entries with another id stay, in their order, and a
    second deletion of the same id changes nothing more. *)
Theorem deleteImage_removes_the_id (id' : string) (s : State) :
  deleteImage id' false s = s
  /\ (id' ∉ id <$> capturedImages s -> deleteImage id' true s = s)
  /\ (id' ∉ id <$> capturedImages (deleteImage id' true s))
  /\ (forall img, (img ∈ capturedImages (deleteImage id' true s))
                  <-> (img ∈ capturedImages s /\ id img <> id'))
  /\ capturedImages (deleteImage id' true s) `sublist_of` capturedImages s
  /\ deleteImage id' true (deleteImage id' true s) = deleteImage id' true s.
Proof.
  assert (Himgs : capturedImages (deleteImage id' true s)
                  = filter (fun img => id img <> id') (capturedImages s)) by done.
  assert (Hgone : id' ∉ id <$> capturedImages (deleteImage id' true s)).
  { rewrite Himgs. intros (img & Hid & Hin)%list_elem_of_fmap.
    apply list_elem_of_filter in Hin as [Hne _]. by apply Hne. }
  assert (Habsent : forall t, id' ∉ id <$> capturedImages t -> deleteImage id' true t = t).
  { intros t Hni. apply setCapturedImages_id, filter_keeps_all.
    intros img Hin Heq. apply Hni, list_elem_of_fmap. by exists img. }
  split; [done|]. split; [by apply Habsent|]. split; [done|].
  split; [|split].
  - intros img. rewrite Himgs, list_elem_of_filter. tauto.
  - rewrite Himgs. apply sublist_filter.
  - by apply Habsent.
Qed.

Lemma deleteImage_removes_the_id_witness :
  let a := mkCapturedImage "17.1" "data:a" true in
  let b := mkCapturedImage "17.2" "data:b" false in
  let s := setCapturedImages (fun _ => [a; b]) initialState in
  capturedImages (deleteImage "17.1" true s) = [b]
  /\ deleteImage "17.9" true s = s.
Proof.
  intros a b s.
  destruct (deleteImage_removes_the_id "17.9" s) as (_ & Habsent & _).
  split; [reflexivity|]. apply Habsent. by_evaluation.
Defined.

(** X7. [deleteSelectedImages], once confirmed, leaves exactly the
    entries that were not selected, in their order: as many entries go as
    were selected, none that stays is selected, so "Analyze Selected" has
    nothing to send and its button is disabled, and a second "Delete
    Selected" changes nothing. When the user declines, nothing changes. *)
Theorem deleteSelectedImages_leaves_the_unselected (s : State) :
  let s' := deleteSelectedImages true s in
  deleteSelectedImages false s = s
  /\ (forall img, (img ∈ capturedImages s')
                  <-> (img ∈ capturedImages s /\ selected img = false))
  /\ capturedImages s' `sublist_of` capturedImages s
  /\ length (capturedImages s') + selectedCount s = length (capturedImages s)
  /\ selectedCount s' = 0
  /\ imagesToProcess false s' = []
  /\ analyzeSelectedDisabled s' = true
  /\ deleteSelectedImages true s' = s'.
Proof.
  intros s'.
  assert (Himgs : capturedImages s'
                  = filter (fun img => negb (selected img)) (capturedImages s)) by done.
  assert (Hunsel : forall img, img ∈ capturedImages s' -> selected img = false).
  { intros img. rewrite Himgs, list_elem_of_filter. intros [H _].
    by destruct (selected img). }
  assert (Hnone : filter (fun img => selected img) (capturedImages s') = []).
  { apply filter_none. intros img Hin Hsel. by rewrite (Hunsel img Hin) in Hsel. }
  split; [done|]. split; [|split; [|split; [|split; [|split; [|split]]]]].
  - intros img. rewrite Himgs, list_elem_of_filter.
    destruct (selected img); cbn; split; intros [? ?]; done.
  - rewrite Himgs. apply sublist_filter.
  - rewrite Himgs. unfold selectedCount.
    rewrite <- (length_filter_split (fun img => selected img) (capturedImages s)).
    rewrite (list_filter_iff (fun img => negb (selected img))
                             (fun img => ~ selected img)); [lia|].
    intros img. destruct (selected img); cbn; tauto.
  - unfold selectedCount. by rewrite Hnone.
  - done.
  - unfold analyzeSelectedDisabled, selectedCount. by rewrite Hnone.
  - apply setCapturedImages_id, filter_keeps_all.
    intros img Hin. by rewrite (Hunsel img Hin).
Qed.

(** X8. [selectAll(select)] gives every entry the flag [select], whatever
    was selected or toggled before. After "Select All" the two "Analyze"
    buttons send the same images, all of them; after "Deselect All"
    "Analyze Selected" has nothing to send. *)
Theorem selectAll_sets_every_flag (select : bool) (s : State) :
  (forall img, img ∈ capturedImages (selectAll select s) -> selected img = select)
  /\ selectedCount (selectAll select s) = (if select then length (capturedImages s) else 0)
  /\ imagesToProcess false (selectAll true s) = imagesToProcess true (selectAll true s)
  /\ imagesToProcess false (selectAll false s) = []
  /\ (forall b, selectAll select (selectAll b s) = selectAll select s)
  /\ (forall id', selectAll select (toggleImageSelection id' s) = selectAll select s).
Proof.
  assert (Hflag : forall b img, img ∈ capturedImages (selectAll b s) -> selected img = b).
  { intros b img. unfold selectAll. rewrite capturedImages_setCapturedImages.
    by intros (img0 & -> & _)%list_elem_of_fmap. }
  assert (Hlen : forall b, length (capturedImages (selectAll b s)) = length (capturedImages s)).
  { intros b. unfold selectAll. by rewrite capturedImages_setCapturedImages, length_fmap. }
  assert (Hsel : filter (fun img => selected img) (capturedImages (selectAll true s))
                 = capturedImages (selectAll true s)).
  { apply filter_keeps_all. intros img Hin. by rewrite (Hflag true img Hin). }
  assert (Hnone : filter (fun img => selected img) (capturedImages (selectAll false s)) = []).
  { apply filter_none. intros img Hin Hs. by rewrite (Hflag false img Hin) in Hs. }
  split; [by apply Hflag|]. split; [|split; [|split; [|split]]].
  - unfold selectedCount. destruct (select : bool).
    + by rewrite Hsel, Hlen.
    + by rewrite Hnone.
  - done.
  - done.
  - intros b. destruct s as [st imgs an er vm ct].
    unfold selectAll, setCapturedImages; cbn. f_equal.
    rewrite <- list_fmap_compose. by apply list_fmap_ext.
  - intros id'. destruct s as [st imgs an er vm ct].
    unfold selectAll, toggleImageSelection, setCapturedImages; cbn. f_equal.
    rewrite <- list_fmap_compose. apply list_fmap_ext. intros _ img _. cbn.
    by destruct (decide _).
Qed.

(** X9. "Select All" followed by a confirmed "Delete Selected" empties
    the store; "Deselect All" followed by it deletes nothing. *)
Theorem selectAll_then_deleteSelectedImages (s : State) :
  capturedImages (deleteSelectedImages true (selectAll true s)) = []
  /\ deleteSelectedImages true (selectAll false s) = selectAll false s.
Proof.
  split.
  - unfold deleteSelectedImages. rewrite capturedImages_setCapturedImages.
    apply filter_none. intros img. unfold selectAll.
    rewrite capturedImages_setCapturedImages.
    intros (img0 & -> & _)%list_elem_of_fmap. cbn. tauto.
  - apply setCapturedImages_id, filter_keeps_all. intros img. unfold selectAll.
    rewrite capturedImages_setCapturedImages.
    by intros (img0 & -> & _)%list_elem_of_fmap.
Qed.

Lemma selectAll_sets_every_flag_witness :
  let a := mkCapturedImage "17.1" "data:a" true in
  let b := mkCapturedImage "17.2" "data:b" false in
  let s := setCapturedImages (fun _ => [a; b]) initialState in
  selected (mkCapturedImage "17.2" "data:b" true) = true
  /\ selectedCount (selectAll true s) = 2
  /\ imagesToProcess false (selectAll false s) = [].
Proof.
  intros a b s.
  destruct (selectAll_sets_every_flag true s) as (Hflag & Hcount & _).
  destruct (selectAll_sets_every_flag false s) as (_ & _ & _ & Hnone & _).
  split; [|split; [exact Hcount | exact Hnone]].
  apply Hflag. right; left.
Defined.

Lemma flipAt_absent (id' : string) (imgs : list CapturedImage) :
  id' ∉ id <$> imgs -> flipAt id' <$> imgs = imgs.
Proof.
  apply fmap_absent. intros img Hne. unfold flipAt. by rewrite decide_False.
Qed.

(** X10. In a store without duplicate ids, a click on an entry changes
    the selected count by exactly one: one more when the entry was not
    selected, one less when it was; the number of entries stays. *)
Theorem toggleImageSelection_counts_one (s : State) (img : CapturedImage) :
  NoDup (id <$> capturedImages s) ->
  img ∈ capturedImages s ->
  (if selected img
   then S (selectedCount (toggleImageSelection (id img) s)) = selectedCount s
   else selectedCount (toggleImageSelection (id img) s) = S (selectedCount s))
  /\ length (capturedImages (toggleImageSelection (id img) s)) = length (capturedImages s).
Proof.
  intros Hnd Hin. split; [|by rewrite toggleImageSelection_images, length_fmap].
  unfold selectedCount. rewrite toggleImageSelection_images.
  apply list_elem_of_split in Hin as (l1 & l2 & Hsplit). rewrite Hsplit in Hnd |- *.
  rewrite fmap_app, fmap_cons in Hnd.
  apply NoDup_app in Hnd as (_ & Hl1 & Hnd). apply NoDup_cons in Hnd as (Hl2 & _).
  assert (Hni1 : id img ∉ id <$> l1).
  { intros Hin1. apply (Hl1 _ Hin1). left. }
  rewrite fmap_app, fmap_cons, !flipAt_absent by done.
  rewrite !filter_app, !filter_cons, !length_app.
  assert (Hflip : selected (flipAt (id img) img) = negb (selected img)).
  { unfold flipAt. by rewrite decide_True. }
  rewrite Hflip. destruct (selected img); cbn [negb].
  - rewrite decide_False by (cbn; tauto). rewrite decide_True by done.
    cbn [length]. lia.
  - rewrite decide_True by done. rewrite decide_False by (cbn; tauto).
    cbn [length]. lia.
Qed.

Lemma toggleImageSelection_counts_one_witness :
  let a := mkCapturedImage "17.1" "data:a" true in
  let b := mkCapturedImage "17.2" "data:b" false in
  let s := setCapturedImages (fun _ => [a; b]) initialState in
  selectedCount s = 1
  /\ selectedCount (toggleImageSelection "17.2" s) = 2
  /\ S (selectedCount (toggleImageSelection "17.1" s)) = 1.
Proof.
  intros a b s.
  assert (Hnd : NoDup (id <$> capturedImages s)) by by_evaluation.
  destruct (toggleImageSelection_counts_one s b Hnd) as (Hb & _); [right; left|].
  destruct (toggleImageSelection_counts_one s a Hnd) as (Ha & _); [left|].
  split; [reflexivity|]. split; [exact Hb | exact Ha].
Defined.

(** ** The batch, seen from its buttons *)

Lemma handleBatchAnalyze_frame {AnalysisResult : Type}
    (analyze : string -> Promise AnalysisResult) (analyzeAll : bool) (s : State) :
  let r := handleBatchAnalyze analyze analyzeAll s in
  analyzed r = url <$> imagesToProcess analyzeAll s
  /\ capturedImages (after r) = capturedImages s
  /\ stream (after r) = stream s
  /\ viewMode (after r) = viewMode s
  /\ cropTarget (after r) = cropTarget s.
Proof.
  intros r. unfold r, handleBatchAnalyze.
  destruct (decide (length (imagesToProcess analyzeAll s) = 0)) as [Hz|Hnz].
  - apply length_zero_iff_nil in Hz. by rewrite Hz.
  - cbn zeta. by destruct (settlement (Promise_all _)).
Qed.

(** X11. The "Analyze" buttons and the handler agree. When the button of
    a batch is enabled, the handler sends at least one image: one call of
    [analyzeImageWithPi] per image of the batch (the selected count for
    "Analyze Selected", the number of entries for "Analyze All"), and it
    awaits them. When the count of the button is zero, the handler
    returns without a call. *)
Theorem enabled_analyze_button_sends_images {AnalysisResult : Type}
    (analyze : string -> Promise AnalysisResult) (analyzeAll : bool) (s : State) :
  let disabled := if analyzeAll then analyzeAllDisabled s else analyzeSelectedDisabled s in
  let count := if analyzeAll then length (capturedImages s) else selectedCount s in
  let r := handleBatchAnalyze analyze analyzeAll s in
  length (analyzed r) = count
  /\ (disabled = false -> analyzed r <> [] /\ resumedAt r <> None /\ isAnalyzing s = false)
  /\ (count = 0 -> disabled = true /\ analyzed r = [] /\ resumedAt r = None /\ after r = s).
Proof.
  intros disabled count r.
  assert (Hlen : length (imagesToProcess analyzeAll s) = count).
  { unfold count. by destruct analyzeAll. }
  destruct (handleBatchAnalyze_frame analyze analyzeAll s) as (Hcalls & _).
  fold r in Hcalls.
  split; [by rewrite Hcalls, length_fmap|]. split.
  - intros Hen.
    assert (Hpos : count <> 0 /\ isAnalyzing s = false).
    { unfold disabled, analyzeAllDisabled, analyzeSelectedDisabled, count in *.
      destruct analyzeAll; apply orb_false_elim in Hen as [Hc Ha];
        apply bool_decide_eq_false in Hc; done. }
    destruct Hpos as [Hpos Hidle]. split; [|split; [|done]].
    + intros Hnil. apply Hpos. by rewrite <- Hlen, <- (length_fmap url), <- Hcalls, Hnil.
    + unfold r, handleBatchAnalyze. rewrite decide_False by by rewrite Hlen.
      cbn zeta. by destruct (settlement (Promise_all _)).
  - intros Hzero. split.
    + unfold disabled, analyzeAllDisabled, analyzeSelectedDisabled, count in *.
      destruct analyzeAll; by rewrite bool_decide_eq_true_2.
    + unfold r, handleBatchAnalyze. by rewrite decide_True by by rewrite Hlen.
Qed.

Lemma enabled_analyze_button_sends_images_witness :
  let a := mkCapturedImage "17.1" "data:a" true in
  let b := mkCapturedImage "17.2" "data:b" false in
  let s := setCapturedImages (fun _ => [a; b]) initialState in
  let analyze := fun u : string => mkPromise 1 (Fulfilled ("report for " +:+ u)) in
  analyzeSelectedDisabled s = false
  /\ analyzed (handleBatchAnalyze analyze false s) <> []
  /\ selectedCount (selectAll false s) = 0
  /\ analyzed (handleBatchAnalyze analyze false (selectAll false s)) = [].
Proof.
  intros a b s analyze.
  destruct (enabled_analyze_button_sends_images analyze false s) as (_ & Hen & _).
  destruct (enabled_analyze_button_sends_images analyze false (selectAll false s))
    as (_ & _ & Hzero).
  destruct (Hen eq_refl) as (Hsent & _). destruct (Hzero eq_refl) as (_ & Hnone & _).
  split; [reflexivity|]. split; [exact Hsent|]. split; [reflexivity | exact Hnone].
Defined.

(** X12. Whatever the calls of [analyzeImageWithPi] give, a batch leaves
    the store, the stream, the view mode and the crop target as they
    were, so the same click after a failed batch sends the same images
    again, in the same order. *)
Theorem handleBatchAnalyze_keeps_store_for_retry {AnalysisResult : Type}
    (analyze analyze' : string -> Promise AnalysisResult) (analyzeAll : bool) (s : State) :
  let r := handleBatchAnalyze analyze analyzeAll s in
  capturedImages (after r) = capturedImages s
  /\ stream (after r) = stream s
  /\ viewMode (after r) = viewMode s
  /\ cropTarget (after r) = cropTarget s
  /\ analyzed r = url <$> imagesToProcess analyzeAll s
  /\ analyzed (handleBatchAnalyze analyze' analyzeAll (after r)) = analyzed r.
Proof.
  intros r.
  destruct (handleBatchAnalyze_frame analyze analyzeAll s) as (Hcalls & Himgs & Hrest).
  destruct (handleBatchAnalyze_frame analyze' analyzeAll (after r)) as (Hcalls' & _).
  fold r in Hcalls, Himgs, Hrest. do 4 (split; [tauto|]). split; [done|].
  rewrite Hcalls', Hcalls. unfold imagesToProcess. by rewrite Himgs.
Qed.

(** X13. When every call of a batch with at least one image is fulfilled,
    [onAnalysisComplete] gets exactly one result per image, the result of
    the call for that image, in dispatch order; the handler resumes when
    the last call settles, leaves [error] as it was, and leaves
    [isAnalyzing] set: the "Analyzing" overlay is not taken down by the
    handler. *)
Theorem handleBatchAnalyze_success_delivers_in_order {AnalysisResult : Type}
    (analyze : string -> Promise AnalysisResult) (analyzeAll : bool) (s : State) :
  imagesToProcess analyzeAll s <> [] ->
  (forall img, img ∈ imagesToProcess analyzeAll s -> ~ isRejected (analyze (url img))) ->
  let images := imagesToProcess analyzeAll s in
  let r := handleBatchAnalyze analyze analyzeAll s in
  exists results,
    onAnalysisComplete r = Some results
    /\ length results = length images
    /\ Fulfilled <$> results = (fun img => settlement (analyze (url img))) <$> images
    /\ resumedAt r
       = Some (foldr Nat.max 0 ((fun img => settledAt (analyze (url img))) <$> images))
    /\ caught r = false
    /\ error (after r) = error s
    /\ isAnalyzing (after r) = true.
Proof.
  intros Hne Hall images r. unfold r. rewrite handleBatchAnalyze_nonempty by done.
  fold images.
  destruct (Promise_all_fulfilled ((fun img => analyze (url img)) <$> images))
    as (vs & Hvs & Heq & Ht).
  { intros p (img & -> & Himg)%list_elem_of_fmap. by apply Hall. }
  cbn zeta. rewrite Hvs. exists vs.
  cbn [onAnalysisComplete resumedAt caught after].
  rewrite <- list_fmap_compose in Heq, Ht.
  split; [done|]. split.
  { rewrite <- (length_fmap Fulfilled), Heq. by rewrite length_fmap. }
  split; [exact Heq|]. split; [by rewrite Ht|]. done.
Qed.

Lemma handleBatchAnalyze_success_delivers_in_order_witness :
  let a := mkCapturedImage "17.1" "data:a" true in
  let b := mkCapturedImage "17.2" "data:b" true in
  let s := setCapturedImages (fun _ => [a; b]) initialState in
  let analyze := fun u : string =>
    if decide (u = "data:b") then mkPromise 1 (Fulfilled "report b")
    else mkPromise 5 (Fulfilled "report a") in
  onAnalysisComplete (handleBatchAnalyze analyze true s) = Some ["report a"; "report b"]
  /\ resumedAt (handleBatchAnalyze analyze true s) = Some 5
  /\ isAnalyzing (after (handleBatchAnalyze analyze true s)) = true.
Proof.
  intros a b s analyze.
  assert (Hne : imagesToProcess true s <> []) by discriminate.
  assert (Hall : forall img, img ∈ imagesToProcess true s -> ~ isRejected (analyze (url img))).
  { intros img Hin Hrej.
    apply elem_of_cons in Hin as [->|Hin]; [exact Hrej|].
    apply elem_of_cons in Hin as [->|Hin]; [exact Hrej|].
    by apply elem_of_nil in Hin. }
  destruct (handleBatchAnalyze_success_delivers_in_order analyze true s Hne Hall)
    as (results & Hres & _ & _ & Ht & _ & _ & Hbusy).
  split; [reflexivity|]. split; [exact Ht | exact Hbusy].
Defined.

(** ** The camera stream: stop and retry *)

Lemma setViewMode_review_releases_witness :
  let mediaStream := mkMediaStream [7; 8] in
  let p := run [Mount; GetUserMediaResolved mediaStream] emptyPage in
  7 ∈ live p
  /\ (7 ∉ live (step (SetViewMode review) p))
  /\ (8 ∉ live (step (SetViewMode review) p)).
Proof.
  intros mediaStream p.
  destruct (setViewMode_review_releases p
              (mkInstance (startCamera_resolved mediaStream initialState) None)
              mediaStream eq_refl eq_refl eq_refl) as (Hreleased & _).
  split; [by_evaluation|].
  split; apply Hreleased; [left | right; left].
Defined.

(** X15. A denied camera and a retry. When a [getUserMedia] call of the
    mounted component rejects, the error message is set and neither the
    stream cell nor the live tracks change; the "Retry Camera" button
    then starts a new request, and when that one resolves the stream cell
    holds the new stream, its tracks are live and the error is cleared.
    Calls made by a component that is unmounted since are left in flight
    and untouched. *)
Theorem retry_after_denied_camera_recovers
    (p : Page) (i : Instance) (n : nat) (mediaStream : MediaStream) :
  component p = Some i ->
  viewMode (current i) = camera ->
  pending p = S n ->
  let denied := step GetUserMediaRejected p in
  let recovered := run [RetryCamera; GetUserMediaResolved mediaStream] denied in
  (error <$> (current <$> component denied))
  = Some (Some "Unable to access camera. Please check permissions.")
  /\ (stream <$> (current <$> component denied)) = Some (stream (current i))
  /\ live denied = live p
  /\ (error <$> (current <$> component recovered)) = Some None
  /\ (stream <$> (current <$> component recovered)) = Some (Some mediaStream)
  /\ live recovered = live p ∪ list_to_set (getTracks mediaStream)
  /\ pending recovered = n
  /\ orphaned recovered = orphaned p.
Proof.
  intros Hi Hmode Hpending denied recovered.
  unfold recovered, denied, run, step. rewrite Hi, Hpending. cbn.
  rewrite Hmode. cbn. done.
Qed.

Lemma retry_after_denied_camera_recovers_witness :
  let mediaStream := mkMediaStream [7] in
  let remounted := run [Mount; Unmount; Mount] emptyPage in
  let p := step OrphanRejected remounted in
  let recovered :=
    run [GetUserMediaRejected; RetryCamera; GetUserMediaResolved mediaStream] p in
  pending remounted = 1 /\ orphaned remounted = 1
  /\ (error <$> (current <$> component p)) = Some None
  /\ (error <$> (current <$> component recovered)) = Some None
  /\ (stream <$> (current <$> component recovered)) = Some (Some mediaStream)
  /\ live recovered = ∅ ∪ list_to_set [7].
Proof.
  intros mediaStream remounted p recovered.
  destruct (retry_after_denied_camera_recovers p (mkInstance initialState None) 0 mediaStream
              eq_refl eq_refl eq_refl) as (_ & _ & _ & Herr & Hstream & Hlive & _).
  do 3 (split; [reflexivity|]).
  split; [exact Herr|]. split; [exact Hstream | exact Hlive].
Defined.

(** ** The application: login and history *)

(** X16. A submit of the login form takes the application from the login
    screen to the dashboard if and only if the user name is exactly
    [ALLEGRI] and the password exactly [ALLEGRI@123]. Then the user
    profile is set and the form shows no error; otherwise the application
    is as it was and the form shows the "Invalid credentials" message,
    with the typed values kept. The history is never touched. *)
Theorem submitLogin_reaches_dashboard_iff {AnalysisResult : Type}
    (form : LoginForm.State) (app : App.State AnalysisResult) :
  App.view app = App.LOGIN ->
  let form' := (App.submitLogin form app).1 in
  let app' := (App.submitLogin form app).2 in
  let accepted :=
    LoginForm.username form = "ALLEGRI" /\ LoginForm.password form = "ALLEGRI@123" in
  (App.view app' = App.DASHBOARD <-> accepted)
  /\ (accepted ->
      App.user app'
      = Some (App.mkUserProfile "ALLEGRI" "Senior Lab Technician" "Microbiology" "")
      /\ form' = form)
  /\ (~ accepted ->
      app' = app
      /\ form' = LoginForm.setError "Invalid credentials. Please check your access details."
                                    form)
  /\ App.analysisHistory app' = App.analysisHistory app.
Proof.
  intros Hview form' app' accepted.
  unfold app', form', App.submitLogin, LoginForm.handleSubmit, accepted.
  destruct (decide (LoginForm.username form = "ALLEGRI")) as [Hu|Hu];
    destruct (decide (LoginForm.password form = "ALLEGRI@123")) as [Hp|Hp].
  - rewrite !bool_decide_eq_true_2 by done. cbn. tauto.
  - rewrite (bool_decide_eq_false_2 (LoginForm.password form = _)) by done.
    rewrite andb_false_r. cbn. rewrite Hview.
    split; [split; [discriminate | tauto] | split; [tauto | done]].
  - rewrite (bool_decide_eq_false_2 (LoginForm.username form = _)) by done.
    cbn. rewrite Hview.
    split; [split; [discriminate | tauto] | split; [tauto | done]].
  - rewrite (bool_decide_eq_false_2 (LoginForm.username form = _)) by done.
    cbn. rewrite Hview.
    split; [split; [discriminate | tauto] | split; [tauto | done]].
Qed.

Lemma submitLogin_reaches_dashboard_iff_witness :
  let app := App.initialState (AnalysisResult := string) in
  let typed := LoginForm.setPassword "ALLEGRI@123"
                 (LoginForm.setUsername "ALLEGRI" LoginForm.initialState) in
  let mistyped := LoginForm.setPassword "allegri@123"
                    (LoginForm.setUsername "ALLEGRI" LoginForm.initialState) in
  App.view (App.submitLogin typed app).2 = App.DASHBOARD
  /\ (App.submitLogin mistyped app).2 = app
  /\ LoginForm.error (App.submitLogin mistyped app).1
     = "Invalid credentials. Please check your access details.".
Proof.
  intros app typed mistyped.
  destruct (submitLogin_reaches_dashboard_iff typed app eq_refl) as (Hiff & _).
  destruct (submitLogin_reaches_dashboard_iff mistyped app eq_refl) as (_ & _ & Hno & _).
  split; [apply Hiff; split; reflexivity|].
  destruct Hno as (Happ & Hform); [intros [_ ?]; discriminate|].
  split; [exact Happ|]. by rewrite Hform.
Defined.

Section AppHistory.
Context {AnalysisResult : Type}.
Variable result_id : AnalysisResult -> string.
Implicit Types (app : App.State AnalysisResult) (actions : list (App.Action (AnalysisResult := AnalysisResult))).

Lemma react_history_grows app (a : App.Action) :
  App.deletes a = false ->
  exists results,
    App.analysisHistory (App.react result_id app a) = App.analysisHistory app ++ results
    /\ App.delivered [a] = results.
Proof.
  destruct a as [[|]| |results| | | |]; intros Hd; try discriminate;
    try (exists []; split; [by rewrite app_nil_r | done]).
  exists results. split; [done|]. cbn. by rewrite app_nil_r.
Qed.

Lemma react_history_known app (a : App.Action) (item : AnalysisResult) :
  item ∈ App.analysisHistory (App.react result_id app a) ->
  item ∈ App.analysisHistory app \/ item ∈ App.delivered [a].
Proof.
  destruct a as [[|]| |results| |ids| |]; cbn; try (by left).
  - rewrite app_nil_r, elem_of_app. tauto.
  - intros Hin. by apply elem_of_nil in Hin.
  - rewrite list_elem_of_filter. tauto.
Qed.

Lemma delivered_cons (a : App.Action) actions :
  App.delivered (a :: actions) = App.delivered [a] ++ App.delivered actions.
Proof. destruct a; cbn; by rewrite ?app_nil_r. Qed.

End AppHistory.

(** X17. The history of the application is what the batches delivered.
    As long as no action deletes records, the history after any sequence
    of logins, logouts, navigations and completed analyses is the history
    before, followed by the results of every completed analysis, in
    order: a logout does not clear it. With deletions, every record of
    the history was there before or was delivered by an analysis. *)
Theorem history_is_what_analyses_delivered {AnalysisResult : Type}
    (result_id : AnalysisResult -> string)
    (actions : list (App.Action (AnalysisResult := AnalysisResult)))
    (app : App.State AnalysisResult) :
  let app' := foldl (App.react result_id) app actions in
  (Forall (fun a => App.deletes a = false) actions ->
   App.analysisHistory app' = App.analysisHistory app ++ App.delivered actions)
  /\ (forall item, item ∈ App.analysisHistory app' ->
                   item ∈ App.analysisHistory app \/ item ∈ App.delivered actions).
Proof.
  revert app. induction actions as [|a actions IH]; intros app app'.
  - split; [by rewrite app_nil_r | by left].
  - unfold app'. cbn [foldl]. destruct (IH (App.react result_id app a)) as [IHgrow IHknown].
    rewrite delivered_cons. split.
    + intros [Ha Hrest]%Forall_cons. rewrite (IHgrow Hrest).
      destruct (react_history_grows result_id app a Ha) as (results & -> & ->).
      by rewrite (assoc_L (++)).
    + intros item Hin. rewrite elem_of_app.
      destruct (IHknown item Hin) as [Hin'|Hin']; [|tauto].
      destruct (react_history_known result_id app a item Hin'); tauto.
Qed.

Lemma history_is_what_analyses_delivered_witness :
  let app := App.initialState (AnalysisResult := string) in
  let actions := [App.Login true; App.AnalysisComplete ["r1"; "r2"]; App.Logout;
                  App.Login true; App.Navigate App.CAMERA; App.AnalysisComplete ["r3"]] in
  App.analysisHistory (foldl (App.react (fun r : string => r)) app actions)
  = ["r1"; "r2"; "r3"].
Proof.
  intros app actions.
  destruct (history_is_what_analyses_delivered (fun r : string => r) actions app)
    as (Hgrow & _).
  rewrite Hgrow; [reflexivity|]. repeat constructor.
Defined.

(** X18. [handleDeleteHistory(ids)] removes exactly the records whose id
    is among [ids], every one of them, and keeps the others in their
    order; it changes neither the view nor the user. With no id it
    changes nothing, applied twice it changes nothing more, and two
    deletions in a row are one deletion of both lists of ids. *)
Theorem handleDeleteHistory_removes_exactly {AnalysisResult : Type}
    (result_id : AnalysisResult -> string) (ids ids' : list string)
    (app : App.State AnalysisResult) :
  let app' := App.handleDeleteHistory result_id ids app in
  (forall item, (item ∈ App.analysisHistory app')
                <-> (item ∈ App.analysisHistory app /\ result_id item ∉ ids))
  /\ App.analysisHistory app' `sublist_of` App.analysisHistory app
  /\ App.view app' = App.view app /\ App.user app' = App.user app
  /\ App.handleDeleteHistory result_id [] app = app
  /\ App.handleDeleteHistory result_id ids app' = app'
  /\ App.handleDeleteHistory result_id ids' app'
     = App.handleDeleteHistory result_id (ids ++ ids') app.
Proof.
  intros app'. destruct app as [v u h sh].
  unfold app', App.handleDeleteHistory, App.setAnalysisHistory. cbn.
  split; [|split; [|split; [|split; [|split; [|split]]]]]; try done.
  - intros item. rewrite list_elem_of_filter. tauto.
  - apply sublist_filter.
  - f_equal. apply filter_keeps_all. intros item _. apply not_elem_of_nil.
  - f_equal. apply filter_keeps_all. intros item [? _]%list_elem_of_filter. done.
  - f_equal. rewrite list_filter_filter. apply list_filter_iff.
    intros item. rewrite not_elem_of_app. tauto.
Qed.

(** ** The history view *)



(** X20. "Delete" in the history view. Once confirmed, the history loses
    exactly the records whose card is checked, whether the current filter
    shows them or not, and the selection is emptied; the filter stays.
    When the user declines, or when nothing is selected, neither the
    history nor the view changes. *)
Theorem handleDeleteSelected_removes_checked_records {AnalysisResult : Type}
    (result_id : AnalysisResult -> string) (confirmed : bool)
    (s : HistoryView.State) (app : App.State AnalysisResult) :
  let s' := (HistoryView.handleDeleteSelected confirmed s).1 in
  let app' := App.onHistory result_id (HistoryView.handleDeleteSelected confirmed s).2 app in
  (confirmed = true ->
   (forall item, (item ∈ App.analysisHistory app')
                 <-> (item ∈ App.analysisHistory app
                      /\ HistoryView.cardChecked result_id item s = false))
   /\ HistoryView.selectedIds s' = ∅)
  /\ (confirmed = false \/ HistoryView.selectedIds s = ∅ -> s' = s /\ app' = app)
  /\ HistoryView.filter s' = HistoryView.filter s
  /\ App.view app' = App.view app.
Proof.
  intros s' app'. unfold s', app', HistoryView.handleDeleteSelected.
  destruct (decide (size (HistoryView.selectedIds s) = 0)) as [Hz|Hnz].
  - apply size_empty_iff, leibniz_equiv in Hz. cbn. split; [|done].
    intros _. split; [|done]. intros item. unfold HistoryView.cardChecked.
    rewrite Hz, bool_decide_eq_false. split; [|tauto].
    intros Hin. split; [done|]. apply not_elem_of_empty.
  - destruct confirmed; cbn.
    + split; [|split; [|by destruct app]].
      * intros _. split; [|done]. intros item. unfold HistoryView.cardChecked.
        rewrite list_elem_of_filter, elem_of_elements, bool_decide_eq_false. tauto.
      * intros [?|Hempty]; [done|]. exfalso. apply Hnz. by rewrite Hempty.
    + split; [done|]. done.
Qed.

Lemma handleDeleteSelected_removes_checked_records_witness :
  let app := App.handleAnalysisComplete ["r1"; "r2"; "r3"]
               (App.initialState (AnalysisResult := string)) in
  let s := HistoryView.setFilter HistoryView.failed
             (HistoryView.toggleSelection "r2" HistoryView.initialState) in
  "r1" ∈ App.analysisHistory
           (App.onHistory (fun r : string => r) (HistoryView.handleDeleteSelected true s).2 app)
  /\ HistoryView.selectedIds (HistoryView.handleDeleteSelected true s).1 = ∅
  /\ (HistoryView.handleDeleteSelected false s).1 = s.
Proof.
  intros app s.
  destruct (handleDeleteSelected_removes_checked_records (fun r : string => r) true s app)
    as (Hyes & _).
  destruct (handleDeleteSelected_removes_checked_records (fun r : string => r) false s app)
    as (_ & Hno & _).
  destruct (Hyes eq_refl) as (Hkept & Hcleared).
  split; [|split; [exact Hcleared | apply Hno; by left]].
  apply Hkept. split; [left | by_evaluation].
Defined.

(** X21. "Clear All" in the history view. On an empty history it does
    nothing and asks nothing. On a history with records, a confirmed
    click empties the history and the selection and keeps the filter and
    the view; a declined one changes nothing. *)
Theorem handleClearAllClick_empties_history {AnalysisResult : Type}
    (result_id : AnalysisResult -> string) (confirmed : bool)
    (s : HistoryView.State) (app : App.State AnalysisResult) :
  let click :=
    HistoryView.handleClearAllClick (length (App.analysisHistory app)) confirmed s in
  let app' := App.onHistory result_id click.2 app in
  (App.analysisHistory app <> [] -> confirmed = true ->
   App.analysisHistory app' = [] /\ HistoryView.selectedIds click.1 = ∅
   /\ App.view app' = App.view app /\ App.user app' = App.user app)
  /\ (App.analysisHistory app = [] \/ confirmed = false -> click = (s, None) /\ app' = app)
  /\ HistoryView.filter click.1 = HistoryView.filter s.
Proof.
  intros click app'. unfold app', click, HistoryView.handleClearAllClick.
  destruct (decide (length (App.analysisHistory app) = 0)) as [Hz|Hnz].
  - apply length_zero_iff_nil in Hz. cbn. done.
  - assert (Hne : App.analysisHistory app <> []) by by rewrite <- length_zero_iff_nil.
    destruct confirmed; cbn; [|split; [done|split; [tauto|done]]].
    split; [done|]. split; [|done]. intros [?|?]; done.
Qed.

Lemma handleClearAllClick_empties_history_witness :
  let app := App.handleAnalysisComplete ["r1"; "r2"]
               (App.initialState (AnalysisResult := string)) in
  let s := HistoryView.toggleSelection "r2" HistoryView.initialState in
  let click := HistoryView.handleClearAllClick (length (App.analysisHistory app)) true s in
  App.analysisHistory (App.onHistory (fun r : string => r) click.2 app) = []
  /\ HistoryView.selectedIds click.1 = ∅
  /\ HistoryView.handleClearAllClick 0 true s = (s, None).
Proof.
  intros app s click.
  destruct (handleClearAllClick_empties_history (fun r : string => r) true s app)
    as (Hyes & _).
  destruct (handleClearAllClick_empties_history (fun r : string => r) true s
              (App.initialState (AnalysisResult := string))) as (_ & Hnone & _).
  destruct Hyes as (Hempty & Hsel & _); [discriminate | reflexivity |].
  split; [exact Hempty|]. split; [exact Hsel|].
  destruct Hnone as (Hclick & _); [by left|]. exact Hclick.
Defined.

(** X22. The cards of the history view. They are the records that pass
    the filter, newest first: with the filter [all] they are the whole
    history reversed, with another filter every card has that status;
    and after an analysis completes, the cards of its results come before
    every older card. *)
Theorem cards_newest_first {AnalysisResult : Type}
    (result_status : AnalysisResult -> string)
    (results : list AnalysisResult) (s : HistoryView.State)
    (app : App.State AnalysisResult) :
  HistoryView.cards result_status
    (App.analysisHistory (App.handleAnalysisComplete results app)) s
  = HistoryView.cards result_status results s
    ++ HistoryView.cards result_status (App.analysisHistory app) s
  /\ (HistoryView.filter s = HistoryView.all ->
      HistoryView.cards result_status results s = reverse results)
  /\ (forall card, card ∈ HistoryView.cards result_status results s ->
                   card ∈ results
                   /\ (HistoryView.filter s <> HistoryView.all ->
                       result_status card = HistoryView.filterName (HistoryView.filter s))).
Proof.
  unfold HistoryView.cards, HistoryView.filteredResults. split; [|split].
  - change (App.analysisHistory (App.handleAnalysisComplete results app))
      with (App.analysisHistory app ++ results).
    by rewrite filter_app, reverse_app.
  - intros ->. f_equal. by apply filter_keeps_all.
  - intros card. rewrite elem_of_reverse, list_elem_of_filter.
    intros [Hkeep Hin]. split; [done|]. intros Hf.
    destruct (HistoryView.filter s); [done| | |]; by apply bool_decide_unpack in Hkeep.
Qed.

Lemma cards_newest_first_witness :
  let status := fun r : string => if decide (r = "r2") then "failed" else "completed" in
  let s := HistoryView.initialState in
  let failed := HistoryView.setFilter HistoryView.failed s in
  HistoryView.cards status ["r1"; "r2"; "r3"] s = ["r3"; "r2"; "r1"]
  /\ HistoryView.cards status ["r1"; "r2"; "r3"] failed = ["r2"]
  /\ status "r2" = "failed".
Proof.
  intros status s failed.
  destruct (cards_newest_first status ["r1"; "r2"; "r3"] s
              (App.initialState (AnalysisResult := string))) as (_ & Hall & _).
  destruct (cards_newest_first status ["r1"; "r2"; "r3"] failed
              (App.initialState (AnalysisResult := string))) as (_ & _ & Hstatus).
  split; [exact (Hall eq_refl)|]. split; [reflexivity|].
  apply (Hstatus "r2"); [left | discriminate].
Defined.

(** X23. A batch and the history. When every call of a batch with at
    least one image is fulfilled, the application shows the history view
    and the history has grown by exactly one record per image of the
    batch, the results in dispatch order after the older records. When a
    call is rejected, or the batch is empty, the application is as it
    was: no record is added and the view stays. *)
Theorem analyzeBatch_adds_one_record_per_image {AnalysisResult : Type}
    (analyze : string -> Promise AnalysisResult) (analyzeAll : bool)
    (cam : State) (app : App.State AnalysisResult) :
  let images := imagesToProcess analyzeAll cam in
  let app' := (App.analyzeBatch analyze analyzeAll cam app).2 in
  (images <> [] ->
   (forall img, img ∈ images -> ~ isRejected (analyze (url img))) ->
   App.view app' = App.HISTORY
   /\ App.user app' = App.user app
   /\ length (App.analysisHistory app') = length (App.analysisHistory app) + length images
   /\ exists results,
        App.analysisHistory app' = App.analysisHistory app ++ results
        /\ Fulfilled <$> results = (fun img => settlement (analyze (url img))) <$> images)
  /\ (images = [] \/ (exists img, img ∈ images /\ isRejected (analyze (url img))) ->
      app' = app).
Proof.
  intros images app'. unfold app', App.analyzeBatch. cbn [snd]. split.
  - intros Hne Hall.
    destruct (Promise_all_fulfilled ((fun img => analyze (url img)) <$> images))
      as (vs & Hvs & Heq & _).
    { intros p (img & -> & Himg)%list_elem_of_fmap. by apply Hall. }
    rewrite handleBatchAnalyze_nonempty by done. fold images. cbn zeta.
    rewrite Hvs. cbn [onAnalysisComplete]. rewrite <- list_fmap_compose in Heq.
    split; [done|]. split; [done|]. split; [|by exists vs].
    cbn. rewrite length_app. f_equal.
    rewrite <- (length_fmap Fulfilled), Heq. by rewrite length_fmap.
  - intros [Hnil | (img & Himg & Hrej)].
    + unfold handleBatchAnalyze. fold images. by rewrite Hnil.
    + assert (Hne : imagesToProcess analyzeAll cam <> []).
      { intros Hnil. fold images in Hnil. rewrite Hnil in Himg.
        by apply elem_of_nil in Himg. }
      destruct (Promise_all_rejected ((fun img => analyze (url img)) <$> images))
        as (p & reason & _ & _ & Hall & _).
      { exists (analyze (url img)). split; [|done].
        apply list_elem_of_fmap. by exists img. }
      rewrite handleBatchAnalyze_nonempty by done. fold images. cbn zeta.
      by rewrite Hall.
Qed.

Lemma analyzeBatch_adds_one_record_per_image_witness :
  let a := mkCapturedImage "17.1" "data:a" true in
  let b := mkCapturedImage "17.2" "data:b" false in
  let cam := setCapturedImages (fun _ => [a; b]) initialState in
  let app := App.handleAnalysisComplete ["old"]
               (App.initialState (AnalysisResult := string)) in
  let good := fun u : string => mkPromise 1 (Fulfilled ("report for " +:+ u)) in
  let bad := fun u : string =>
    if decide (u = "data:b") then mkPromise 1 (Rejected "timeout")
    else mkPromise 5 (Fulfilled ("report for " +:+ u)) in
  App.view (App.analyzeBatch good false cam app).2 = App.HISTORY
  /\ App.analysisHistory (App.analyzeBatch good false cam app).2
     = ["old"; "report for data:a"]
  /\ (App.analyzeBatch bad true cam app).2 = app.
Proof.
  intros a b cam app good bad.
  destruct (analyzeBatch_adds_one_record_per_image good false cam app) as (Hgood & _).
  destruct (analyzeBatch_adds_one_record_per_image bad true cam app) as (_ & Hbad).
  destruct Hgood as (Hview & _); [discriminate | |].
  { intros img Hin Hrej. exact Hrej. }
  split; [exact Hview|]. split; [reflexivity|].
  apply Hbad. right. exists b. split; [right; left | exact I].
Defined.
